(** * pdf-cli: a shallow embedding of [pdf.py]

    The program is a [click] command group with three commands ([merge],
    [split], [compress]) built from five helpers ([_check_pdfs],
    [_display_pdfs], [_merge_pdfs], [_sort_pdfs], [_compress_pdf]).

    What is modelled, and how:
    - a path is a [string], the UTF-8 encoding of the Python string; what
      [str.lower], [str.strip] and the case folding of [click.Choice] make
      of a string is not computed from its bytes: the program takes these
      operations as a parameter ([StrOps]), and the theorems hold for every
      choice of them;
    - the file system is explicit state ([FS]): a table from paths to nodes,
      the expansion of glob patterns, and which paths can be opened for
      writing;
    - the console is the list of the lines [click.echo] printed, oldest
      first, each a structured message in place of the formatted text;
    - the PyPDF2 classes are an interface ([PdfLib]) whose operations may
      raise; every theorem of a section that takes [L : PdfLib] holds for
      all behaviours of the library;
    - Python exceptions are the [Raise] results of a state-and-exception
      monad [M]; the state reached when the exception was raised is kept,
      as the lines already printed stay printed.

    The file has three parts: the program, the vocabulary and the sample
    worlds of the statements, and the theorems, one group per component
    (validator, sorter, merger, [merge] command, compressor), followed by
    further properties of each component and of the command line. *)

From Stdlib Require Import List String Ascii Bool Arith ZArith QArith Lia.
From Stdlib Require Import Permutation Sorted.
Import ListNotations.

Close Scope Q_scope.
Open Scope string_scope.
Open Scope list_scope.

Set Implicit Arguments.

(* ===================================================================== *)
(** ** Python strings *)
(* ===================================================================== *)

Module PyStr.

(** [s.startswith(p)] *)
Definition startswith (s p : string) : bool := String.prefix p s.

(** [s.endswith(suf)]: [s] itself, or what follows one of its characters,
    is [suf]. *)
Fixpoint endswith (s suf : string) : bool :=
  String.eqb s suf ||
  match s with
  | EmptyString => false
  | String _ s' => endswith s' suf
  end.

(** [s[1:]] of a string that starts with an ASCII character (the program
    takes it of an option that starts with [^]). *)
Definition tail (s : string) : string :=
  match s with
  | EmptyString => EmptyString
  | String _ s' => s'
  end.

(** Truth value of a string: the empty string is false. *)
Definition truthy (s : string) : bool :=
  match s with
  | EmptyString => false
  | String _ _ => true
  end.

End PyStr.

(** The operations of [str] that depend on the Unicode character
    database.  A [string] holds the UTF-8 encoding of a Python string (a
    lone surrogate, as a file name that is not UTF-8 gives, in its
    three-byte form): two encodings compare byte by byte as the strings
    compare code point by code point, and a string starts or ends with an
    ASCII text exactly when its encoding does, so [String.ltb],
    [String.eqb], [startswith] and [endswith] are the comparisons of
    Python.  Case and white space are left open: the program is
    parametrised by these operations. *)
Record StrOps : Type := mkStrOps {
  lower : string -> string;      (* [s.lower()] *)
  strip : string -> string;      (* [s.strip()] *)
  casefold : string -> string    (* the folding of case of [click.Choice]:
                                    [str.casefold], [str.lower] before
                                    click 8 *)
}.

(** Truth value of an optional string ([None] and the empty string are
    false). *)
Definition truthy_opt (o : option string) : bool :=
  match o with
  | None => false
  | Some s => PyStr.truthy s
  end.

(** [os.path.join(a, b)] of [posixpath]: an absolute [b] replaces [a];
    otherwise [b] is added after a separator, unless [a] is empty or
    already ends with one. *)
Definition os_path_join (a b : string) : string :=
  if PyStr.startswith b "/" then b
  else if negb (PyStr.truthy a) || PyStr.endswith a "/" then a ++ b
  else a ++ "/" ++ b.

(* ===================================================================== *)
(** ** Exceptions, the file system, the console *)
(* ===================================================================== *)

(** The exceptions that reach the program.  All of them are subclasses of
    [Exception]; only [FileNotFoundError] is matched by the first handler
    of the merge loop. *)
Inductive exn : Type :=
| FileNotFoundError (path : string)
| OSError (path : string)
| PdfError (reason : string)
| ZeroDivisionError
| UsageError (param : string)
| Abort.

(** A page, as far as this program looks at one: its content stream. *)
Definition page : Type := string.

Inductive content : Type :=
| Text (lines : list string)    (* what [readlines()] returns *)
| Document (pages : list page)  (* a file written by the PDF library *)
| Bytes.                        (* anything else *)

Inductive file_kind : Type :=
| RegularFile
| Directory
| Special.   (* a pipe, a device, a socket *)

Record node : Type := mkNode {
  kind : file_kind;
  st_size : Z;
  st_mtime : Z;
  body : content
}.

Definition is_dir (n : node) : bool :=
  match kind n with
  | Directory => true
  | _ => false
  end.

Definition is_regular (n : node) : bool :=
  match kind n with
  | RegularFile => true
  | _ => false
  end.

Record FS : Type := mkFS {
  lookup : string -> option node;
  glob_expand : string -> list string;  (* [glob.glob(pattern)] *)
  writable : string -> bool;            (* [open(path, "wb")] succeeds *)
  now : Z                               (* time stamp of a file written *)
}.

(** [os.path.isfile(p)] *)
Definition isfile (fs : FS) (p : string) : bool :=
  match lookup fs p with
  | Some n => is_regular n
  | None => false
  end.

Definition fs_put (fs : FS) (p : string) (n : node) : FS :=
  {| lookup := fun q => if String.eqb q p then Some n else lookup fs q;
     glob_expand := glob_expand fs;
     writable := writable fs;
     now := now fs |}.

Inductive colour : Type := Blue | Green | Red | Yellow.

(** The lines the program prints, one constructor per format string. *)
Inductive message : Type :=
| FoundPdfs (count : nat)              (* "Found {count} PDFs to merge:" *)
| Item (number : nat) (pdf : string)   (* "{number:>3} {pdf}" *)
| Appended (file : string)             (* "Appended `{file}`" *)
| NotFoundSkipping (file : string)     (* "File `{file}` not found. Skipping" *)
| ErrorAppending (file : string) (e : exn)
                                       (* "Error appending `{file}: {e}`. Skipping" *)
| SortingBy (key : string) (descending : bool)
                       (* "Sorting PDFs by {key} in {descending|ascending} order." *)
| NoPdfsFound                          (* "No PDFs found." *)
| ConfirmMerge                         (* "Are you sure you want to merge these PDFs?" *)
| MergedTo (count : nat) (output_file : string)
                                       (* "Merged {count} PDFs to `{output_file}`." *)
| NoValidPdfs                          (* "No valid PDFs found to merge." *)
| SplitNotImplemented                  (* "PDF split not yet implemented." *)
| CompressedTo (file output_file : string)
                                       (* "Compressed `{file}` to `{output_file}`." *)
| SizeBefore (size : Z)                (* "File size before: {size} bytes" *)
| SizeAfter (size : Z) (percent : Q).  (* "File size after: {size} bytes ({percent:.2f}%)" *)

Record line : Type := mkLine {
  fg : option colour;
  text : message
}.

Definition style (m : message) (c : colour) : line := mkLine (Some c) m.
Definition plain (m : message) : line := mkLine None m.

Record World : Type := mkWorld {
  fs : FS;
  console : list line;   (* oldest first *)
  answers : list bool    (* what the user will answer to the prompts *)
}.

(* ===================================================================== *)
(** ** The monad of commands *)
(* ===================================================================== *)

Inductive result (A : Type) : Type :=
| Ok (a : A)
| Raise (e : exn).

Arguments Ok {A} a.
Arguments Raise {A} e.

Definition M (A : Type) : Type := World -> result A * World.

Definition ret {A} (a : A) : M A := fun w => (Ok a, w).

Definition raise {A} (e : exn) : M A := fun w => (Raise e, w).

Definition bind {A B} (m : M A) (k : A -> M B) : M B :=
  fun w =>
    match m w with
    | (Ok a, w') => k a w'
    | (Raise e, w') => (Raise e, w')
    end.

Declare Scope py_scope.
Delimit Scope py_scope with py.
Notation "x <- m ;; k" := (bind m (fun x => k))
  (at level 100, m at next level, right associativity) : py_scope.
Notation "' p <- m ;; k" := (bind m (fun x => match x with p => k end))
  (at level 100, p pattern, m at next level, right associativity) : py_scope.
Notation "m ;; k" := (bind m (fun _ => k))
  (at level 100, right associativity) : py_scope.
Open Scope py_scope.

(** [click.echo(l)] *)
Definition echo (l : line) : M unit :=
  fun w => (Ok tt, mkWorld (fs w) (console w ++ [l]) (answers w)).

(** A [for] loop over a list. *)
Fixpoint for_each {A} (xs : list A) (body : A -> M unit) : M unit :=
  match xs with
  | [] => ret tt
  | x :: xs' => body x ;; for_each xs' body
  end.

(** [enumerate(xs)] *)
Definition enumerate {A} (xs : list A) : list (nat * A) :=
  combine (seq 0 (List.length xs)) xs.

(** [os.path.getsize(p)] and [os.path.getmtime(p)] *)
Definition getsize (p : string) : M Z :=
  fun w =>
    match lookup (fs w) p with
    | Some n => (Ok (st_size n), w)
    | None => (Raise (FileNotFoundError p), w)
    end.

Definition getmtime (p : string) : M Z :=
  fun w =>
    match lookup (fs w) p with
    | Some n => (Ok (st_mtime n), w)
    | None => (Raise (FileNotFoundError p), w)
    end.

(** [open(p, "r").readlines()] *)
Definition readlines (p : string) : M (list string) :=
  fun w =>
    match lookup (fs w) p with
    | Some n =>
        if is_dir n then (Raise (OSError p), w)
        else match body n with
             | Text ls => (Ok ls, w)
             | _ => (Raise (OSError p), w)
             end
    | None => (Raise (FileNotFoundError p), w)
    end.

(** [glob(pattern)] *)
Definition glob (pattern : string) : M (list string) :=
  fun w => (Ok (glob_expand (fs w) pattern), w).

(** [open(p, "wb")]: the file is created, or emptied if it exists. *)
Definition open_wb (p : string) : M unit :=
  fun w =>
    if writable (fs w) p
    then (Ok tt, mkWorld (fs_put (fs w) p (mkNode RegularFile 0 (now (fs w)) Bytes))
                         (console w) (answers w))
    else (Raise (OSError p), w).

(** The bytes of a document reach the file opened at [p]. *)
Definition store (p : string) (pages : list page) (size : Z) : M unit :=
  fun w =>
    (Ok tt, mkWorld (fs_put (fs w) p (mkNode RegularFile size (now (fs w)) (Document pages)))
                    (console w) (answers w)).

(* ===================================================================== *)
(** ** [_check_pdfs] *)
(* ===================================================================== *)

(** [[pdf for pdf in pdfs if os.path.isfile(pdf) and pdf.endswith(".pdf")]] *)
Fixpoint _check_pdfs (fs : FS) (pdfs : list string) : list string :=
  match pdfs with
  | [] => []
  | pdf :: rest =>
      if isfile fs pdf && PyStr.endswith pdf ".pdf"
      then pdf :: _check_pdfs fs rest
      else _check_pdfs fs rest
  end.

(** [_display_pdfs] *)
Definition _display_pdfs (pdfs : list string) : M unit :=
  echo (style (FoundPdfs (List.length pdfs)) Blue) ;;
  for_each (enumerate pdfs)
    (fun '(index, pdf) => echo (plain (Item (index + 1) pdf))).

(* ===================================================================== *)
(** ** [list.sort] and [_sort_pdfs] *)
(* ===================================================================== *)

Section ListSort.

Variables (A K : Type).
Variable lt : K -> K -> bool.   (* [<] on the keys *)

(** A stable sort that, like [list.sort], compares keys with [<] only.
    The element inserted stood before every element of the run it enters,
    so it stops in front of the first key that is not smaller than its
    own. *)
Fixpoint insert (x : K * A) (run : list (K * A)) : list (K * A) :=
  match run with
  | [] => [x]
  | y :: run' =>
      if lt (fst y) (fst x) then y :: insert x run' else x :: y :: run'
  end.

Fixpoint stable_sort (l : list (K * A)) : list (K * A) :=
  match l with
  | [] => []
  | x :: l' => insert x (stable_sort l')
  end.

(** [l.sort(key=..., reverse=...)] on the list of keys and values: with
    [reverse] the list is reversed, sorted, and reversed again, which
    keeps equal keys in their original order. *)
Definition sort_decorated (reverse : bool) (l : list (K * A)) : list (K * A) :=
  if reverse then rev (stable_sort (rev l)) else stable_sort l.

End ListSort.

Fixpoint map_M {A B} (f : A -> M B) (xs : list A) : M (list B) :=
  match xs with
  | [] => ret []
  | x :: xs' => y <- f x ;; ys <- map_M f xs' ;; ret (y :: ys)
  end.

(** [files.sort(key=key, reverse=reverse)]: the key of every element is
    computed first (an exception there leaves the list as it was). *)
Definition list_sort {K} (lt : K -> K -> bool) (key : string -> M K)
    (reverse : bool) (files : list string) : M (list string) :=
  keys <- map_M key files ;;
  ret (map snd (sort_decorated lt reverse (combine keys files))).

Inductive sort_key : Type :=
| LowerName   (* [lambda name: name.lower()] *)
| Mtime       (* [os.path.getmtime] *)
| Size.       (* [os.path.getsize] *)

Definition sort_by (T : StrOps) (k : sort_key) (reverse : bool)
    (files : list string) : M (list string) :=
  match k with
  | LowerName => list_sort String.ltb (fun name => ret (lower T name)) reverse files
  | Mtime => list_sort Z.ltb getmtime reverse files
  | Size => list_sort Z.ltb getsize reverse files
  end.

Definition _sort_pdfs (T : StrOps) (files : list string)
    (sort_option : option string) : M (list string) :=
  match sort_option with
  | Some option =>
      if PyStr.truthy option then
        let reverse_order := PyStr.startswith option "^" in
        let option := if reverse_order then PyStr.tail option else option in
        let key :=
          if option =? "name" then Some LowerName
          else if option =? "date" then Some Mtime
          else if option =? "size" then Some Size
          else None in
        match key with
        | Some k =>
            echo (style (SortingBy option reverse_order) Yellow) ;;
            sort_by T k reverse_order files
        | None => ret files
        end
      else ret files
  | None => ret files
  end.

(* ===================================================================== *)
(** ** Pieces of [click] and of Python used by the commands *)
(* ===================================================================== *)

(** [a / b] on integers: the quotient, or [ZeroDivisionError].  The
    quotient is kept exact; the rounding to a binary64 float and the
    rendering of its digits are not modelled. *)
Definition true_div (a b : Z) : M Q :=
  if (b =? 0)%Z then raise ZeroDivisionError
  else ret (inject_Z a / inject_Z b)%Q.

(** [[line.strip() for line in lines if line.strip().endswith(".pdf")]] *)
Fixpoint pdf_lines (T : StrOps) (lines : list string) : list string :=
  match lines with
  | [] => []
  | line :: rest =>
      if PyStr.endswith (strip T line) ".pdf"
      then strip T line :: pdf_lines T rest
      else pdf_lines T rest
  end.

Definition with_fs {A} (f : FS -> A) : M A := fun w => (Ok (f (fs w)), w).

(** [click.confirm(prompt, abort=True)]: the prompt is shown and an answer
    is read; a refusal, or the end of the input, raises [Abort]. *)
Definition confirm_or_abort (prompt : line) : M unit :=
  fun w =>
    match answers w with
    | true :: rest => (Ok tt, mkWorld (fs w) (console w ++ [prompt]) rest)
    | false :: rest => (Raise Abort, mkWorld (fs w) (console w ++ [prompt]) rest)
    | [] => (Raise Abort, mkWorld (fs w) (console w ++ [prompt]) [])
    end.

(** [click.Path(exists=True, dir_okay=...)] *)
Definition click_path (param : string) (dir_okay : bool) (value : string) : M unit :=
  fun w =>
    match lookup (fs w) value with
    | Some n =>
        if is_dir n && negb dir_okay then (Raise (UsageError param), w)
        else (Ok tt, w)
    | None => (Raise (UsageError param), w)
    end.

Definition sort_choices : list string :=
  ["name"; "date"; "size"; "^name"; "^date"; "^size"].

(** [click.Choice(sort_choices, case_sensitive=False)]: the choice that
    equals the value up to case is passed on. *)
Definition click_choice (T : StrOps) (param : string) (value : option string)
  : M (option string) :=
  match value with
  | None => ret None
  | Some v =>
      match find (fun c => casefold T c =? casefold T v) sort_choices with
      | Some c => ret (Some c)
      | None => raise (UsageError param)
      end
  end.

(** Exit status of the process for the way a command ended: a usage error
    exits with 2; [Abort] and every exception that is not caught exit
    with 1. *)
Definition exit_status (r : result unit) : Z :=
  match r with
  | Ok _ => 0
  | Raise (UsageError _) => 2
  | Raise _ => 1
  end.

(* ===================================================================== *)
(** ** The PDF library *)
(* ===================================================================== *)

(** What the program uses of PyPDF2.  Every operation either gives its
    value or raises.  The operations that read a file are given its path
    only: in each command every read comes before the one write, so the
    library sees the files as they were when the command started.
    - [merger_append file]: the pages [PdfMerger.append(file)] adds to
      [merger.pages]; the library inserts them as the last step of
      [append], so a call that raises has added none.
    - [reader_pages file]: [PdfReader(file)] and its [pages], a lazy
      sequence: the element at each position is the page read, or the
      exception raised when the loop reaches that position.
    - [compress_content_streams p]: the page after
      [p.compress_content_streams()].
    - [serialized_size pages]: the number of bytes [write] produces for
      the document of these pages, or the exception it raises. *)
Record PdfLib : Type := mkPdfLib {
  merger_append : string -> result (list page);
  reader_pages : string -> result (list (result page));
  compress_content_streams : page -> result page;
  serialized_size : list page -> result Z
}.

Definition lift {A} (r : result A) : M A := fun w => (r, w).

(** Python's truth value of a list. *)
Definition nonempty {A} (xs : list A) : bool :=
  match xs with
  | [] => false
  | _ :: _ => true
  end.

Section Program.

Variable T : StrOps.
Variable L : PdfLib.

(** [PdfWriter.write] on a path, as [merger.write(output_file)] does, and
    [with open(output_file, "wb") as f: writer.write(f)]: the file is
    opened (created or emptied) first, then the document is serialised
    into it. *)
Definition write_document (output_file : string) (pages : list page) : M unit :=
  open_wb output_file ;;
  size <- lift (serialized_size L pages) ;;
  store output_file pages size.

(* --------------------------------------------------------------------- *)
(** *** [_merge_pdfs] *)

(** The [for file in files] loop; [merged_count] and [pages] (the
    [merger.pages] list) are the variables it updates. *)
Fixpoint merge_loop (files : list string) (merged_count : nat) (pages : list page)
  : M (nat * list page) :=
  match files with
  | [] => ret (merged_count, pages)
  | file :: rest =>
      match merger_append L file with
      | Ok added =>
          echo (style (Appended file) Green) ;;
          merge_loop rest (merged_count + 1) (pages ++ added)
      | Raise (FileNotFoundError _) =>
          echo (style (NotFoundSkipping file) Red) ;;
          merge_loop rest merged_count pages
      | Raise e =>
          echo (style (ErrorAppending file e) Red) ;;
          merge_loop rest merged_count pages
      end
  end.

Definition _merge_pdfs (files : list string) (output_file : string)
  : M (string * nat) :=
  '(merged_count, pages) <- merge_loop files 0 [] ;;
  (if nonempty pages then write_document output_file pages else ret tt) ;;
  ret (output_file, merged_count).

(* --------------------------------------------------------------------- *)
(** *** [_compress_pdf] and [compress] *)

(** The [for page in reader.pages] loop; [writer] holds the pages added to
    the [PdfWriter] so far. *)
Fixpoint compress_loop (pages : list (result page)) (writer : list page)
  : M (list page) :=
  match pages with
  | [] => ret writer
  | next :: rest =>
      page <- lift next ;;
      page <- lift (compress_content_streams L page) ;;
      compress_loop rest (writer ++ [page])
  end.

Definition _compress_pdf (file output_file : string) : M (string * Z) :=
  pages <- lift (reader_pages L file) ;;
  writer <- compress_loop pages [] ;;
  write_document output_file writer ;;
  size <- getsize output_file ;;
  ret (output_file, size).

Definition compress (file output : string) : M unit :=
  size_before <- getsize file ;;
  '(output_file, size_after) <- _compress_pdf file output ;;
  echo (style (CompressedTo file output_file) Blue) ;;
  echo (style (SizeBefore size_before) Blue) ;;
  ratio <- true_div (size_before - size_after) size_before ;;
  echo (style (SizeAfter size_after (ratio * 100)) Blue).

(* --------------------------------------------------------------------- *)
(** *** [merge] *)

(** Lines 173-183 of [merge]: the candidate paths. *)
Definition merge_candidates (files : list string) (dir pattern : string)
    (from_list : option string) : M (list string) :=
  if nonempty files then ret (map (os_path_join dir) files)
  else match from_list with
       | Some list_file =>
           if PyStr.truthy list_file
           then lines <- readlines list_file ;; ret (pdf_lines T lines)
           else glob (os_path_join dir pattern)
       | None => glob (os_path_join dir pattern)
       end.

Definition merge (yes : bool) (files : list string) (dir pattern : string)
    (from_list sort : option string) (output : string) : M unit :=
  pdfs <- merge_candidates files dir pattern from_list ;;
  pdfs <- with_fs (fun fs => _check_pdfs fs pdfs) ;;
  _display_pdfs pdfs ;;
  pdfs <- (if truthy_opt sort then _sort_pdfs T pdfs sort else ret pdfs) ;;
  if negb (nonempty pdfs) then echo (style NoPdfsFound Red)
  else
    (if negb yes then confirm_or_abort (style ConfirmMerge Yellow) else ret tt) ;;
    '(output_file, merged_count) <- _merge_pdfs pdfs output ;;
    if (0 <? merged_count)%nat
    then echo (style (MergedTo merged_count output_file) Blue)
    else echo (style NoValidPdfs Red).

(** [split] *)
Definition split : M unit :=
  echo (style SplitNotImplemented Yellow).

(* --------------------------------------------------------------------- *)
(** *** The command group *)

Inductive command : Type :=
| Merge (yes : bool) (files : list string) (dir pattern : string)
        (from_list sort : option string) (output : string)
| Split
| Compress (file output : string).

(** The parameter types are checked before the body of a command runs. *)
Definition invoke (c : command) : M unit :=
  match c with
  | Merge yes files dir pattern from_list sort output =>
      for_each files (click_path "files" false) ;;
      click_path "dir" true dir ;;
      match from_list with
      | Some p => click_path "from_list" false p
      | None => ret tt
      end ;;
      sort <- click_choice T "sort" sort ;;
      merge yes files dir pattern from_list sort output
  | Split => split
  | Compress file output =>
      click_path "file" false file ;;
      compress file output
  end.

(** [cli()]: the exit status of the process and the world it leaves. *)
Definition cli (c : command) (w : World) : Z * World :=
  let (r, w') := invoke c w in (exit_status r, w').

End Program.

(* ===================================================================== *)
(** ** Vocabulary of the statements *)
(* ===================================================================== *)

(** [selects P l l']: [l'] is what is left of [l] when exactly the elements
    that satisfy [P] are kept, each at its place. *)
Inductive selects {A} (P : A -> Prop) : list A -> list A -> Prop :=
| selects_nil : selects P [] []
| selects_keep x l l' : P x -> selects P l l' -> selects P (x :: l) (x :: l')
| selects_drop x l l' : ~ P x -> selects P l l' -> selects P (x :: l) l'.

(** The path names a regular file of [fs]. *)
Definition regular_file (fs : FS) (p : string) : Prop :=
  exists n, lookup fs p = Some n /\ kind n = RegularFile.

(** The string ends with the four characters [.pdf]. *)
Definition pdf_suffixed (p : string) : Prop :=
  exists stem, p = (stem ++ ".pdf")%string.

Definition valid_pdf (fs : FS) (p : string) : Prop :=
  regular_file fs p /\ pdf_suffixed p.

(** Order of two decorated elements by their keys: the key of the second
    is not smaller than the key of the first. *)
Definition key_le {A K} (lt : K -> K -> bool) (a b : K * A) : Prop :=
  lt (fst b) (fst a) = false.

(** An element with its key in front, as [list.sort] holds it while it
    sorts. *)
Definition decorate {A K} (key : A -> K) (x : A) : K * A := (key x, x).

(** What [l.sort(key=key, reverse=reverse)] leaves in [l] when no key
    raises. *)
Definition sorted_by {A K} (lt : K -> K -> bool) (key : A -> K)
    (reverse : bool) (l : list A) : list A :=
  map snd (sort_decorated lt reverse (combine (map key l) l)).

(** The world after one more line is printed. *)
Definition announce (w : World) (l : line) : World :=
  mkWorld (fs w) (console w ++ [l]) (answers w).

(** The lower-cased name of [a] comes no later than the lower-cased name
    of [b]. *)
Definition name_le (T : StrOps) (a b : string) : Prop :=
  String.leb (lower T a) (lower T b) = true.

(** The elements of [l] whose lower-cased name is [k]. *)
Definition named (T : StrOps) (k : string) (l : list string) : list string :=
  filter (fun f => lower T f =? k) l.

(** What the merge loop does with one file, read off the library: the
    line it prints, the pages it gains, and whether the file counts. *)
Definition append_line (L : PdfLib) (file : string) : line :=
  match merger_append L file with
  | Ok _ => style (Appended file) Green
  | Raise (FileNotFoundError _) => style (NotFoundSkipping file) Red
  | Raise e => style (ErrorAppending file e) Red
  end.

Definition appends (L : PdfLib) (file : string) : bool :=
  match merger_append L file with
  | Ok _ => true
  | Raise _ => false
  end.

Definition pages_of (L : PdfLib) (file : string) : list page :=
  match merger_append L file with
  | Ok added => added
  | Raise _ => []
  end.

(** The pages of the files that append, in the order of the files. *)
Definition appended_pages (L : PdfLib) (files : list string) : list page :=
  flat_map (pages_of L) files.

(** The number of files that append. *)
Definition appended_count (L : PdfLib) (files : list string) : nat :=
  List.length (filter (appends L) files).

(** The warning printed for a file whose append raised [e]. *)
Definition skip_line (file : string) (e : exn) : line :=
  match e with
  | FileNotFoundError _ => style (NotFoundSkipping file) Red
  | _ => style (ErrorAppending file e) Red
  end.

(** [p] holds a document of these pages. *)
Definition holds_document (fs : FS) (p : string) (pages : list page) : Prop :=
  exists size mtime, lookup fs p = Some (mkNode RegularFile size mtime (Document pages)).

(** From [fs] to [fs'] the document was written to [output] and no other
    path changed. *)
Definition written (fs fs' : FS) (output : string) (pages : list page) : Prop :=
  holds_document fs' output pages /\
  forall p, p <> output -> lookup fs' p = lookup fs p.

(** The path passes [click.Path(exists=True, dir_okay=False)]: it exists
    and is no directory. *)
Definition accepted (fs : FS) (p : string) : bool :=
  match lookup fs p with
  | Some n => negb (is_dir n)
  | None => false
  end.

(** The lines [_display_pdfs] prints for a list. *)
Definition preview (pdfs : list string) : list line :=
  style (FoundPdfs (List.length pdfs)) Blue ::
  map (fun ip => plain (Item (fst ip + 1) (snd ip))) (enumerate pdfs).

(** The files the merge loop went through, read off the lines it
    printed. *)
Definition attempted (printed : list line) : list string :=
  flat_map (fun l => match text l with
                     | Appended f | NotFoundSkipping f | ErrorAppending f _ => [f]
                     | _ => []
                     end) printed.

(** The values of [g] on a list, or the first exception. *)
Fixpoint all_ok {A B} (g : A -> result B) (xs : list A) : result (list B) :=
  match xs with
  | [] => Ok []
  | x :: xs' =>
      match g x with
      | Ok y => match all_ok g xs' with
                | Ok ys => Ok (y :: ys)
                | Raise e => Raise e
                end
      | Raise e => Raise e
      end
  end.

(** A field of the node at [p], as [os.path.getsize] and [getmtime] read
    it. *)
Definition stat_field (field : node -> Z) (fs : FS) (p : string) : result Z :=
  match lookup fs p with
  | Some n => Ok (field n)
  | None => Raise (FileNotFoundError p)
  end.

(** The compression loop meets a failure on these pages: a page that
    cannot be read, or one whose content streams cannot be compressed,
    after pages that could. *)
Inductive page_failure (L : PdfLib) : list (result page) -> exn -> Prop :=
| read_fails e rest :
    page_failure L (Raise e :: rest) e
| compress_fails p e rest :
    compress_content_streams L p = Raise e ->
    page_failure L (Ok p :: rest) e
| fails_later p p' rest e :
    compress_content_streams L p = Ok p' ->
    page_failure L rest e ->
    page_failure L (Ok p :: rest) e.

(** Every page is read and compressed; the second list holds the
    results. *)
Inductive pages_compress (L : PdfLib) : list (result page) -> list page -> Prop :=
| compress_none : pages_compress L [] []
| compress_more p p' rest out :
    compress_content_streams L p = Ok p' ->
    pages_compress L rest out ->
    pages_compress L (Ok p :: rest) (p' :: out).

(** A failure of [_compress_pdf]: opening the input, reading or
    compressing a page, opening the output, or writing it. *)
Inductive compression_failure (L : PdfLib) (fs : FS) (file output : string)
  : exn -> Prop :=
| reader_fails e :
    reader_pages L file = Raise e ->
    compression_failure L fs file output e
| page_fails pages e :
    reader_pages L file = Ok pages ->
    page_failure L pages e ->
    compression_failure L fs file output e
| open_fails pages out :
    reader_pages L file = Ok pages ->
    pages_compress L pages out ->
    writable fs output = false ->
    compression_failure L fs file output (OSError output)
| write_fails pages out e :
    reader_pages L file = Ok pages ->
    pages_compress L pages out ->
    writable fs output = true ->
    serialized_size L out = Raise e ->
    compression_failure L fs file output e.

(** The path exists ([os.path.exists]). *)
Definition present (fs : FS) (p : string) : bool :=
  match lookup fs p with
  | Some _ => true
  | None => false
  end.

(** A field of the node at [p]; 0 stands for the field of a path that
    does not exist. *)
Definition field_at (field : node -> Z) (fs : FS) (p : string) : Z :=
  match lookup fs p with
  | Some n => field n
  | None => 0%Z
  end.

(** The sort option once a leading [^] is taken off, and the key it
    names, if any. *)
Definition key_name (option : string) : string :=
  if PyStr.startswith option "^" then PyStr.tail option else option.

Definition key_of (name : string) : option sort_key :=
  if name =? "name" then Some LowerName
  else if name =? "date" then Some Mtime
  else if name =? "size" then Some Size
  else None.

(** The line [_sort_pdfs] prints before it sorts. *)
Definition sorting_line (option : string) : line :=
  style (SortingBy (key_name option) (PyStr.startswith option "^")) Yellow.

(** What [_sort_pdfs] prints for a sort option: the announcement when the
    option names a key, nothing otherwise. *)
Definition sort_lines (sort : option string) : list line :=
  match sort with
  | Some option =>
      match key_of (key_name option) with
      | Some _ => [sorting_line option]
      | None => []
      end
  | None => []
  end.

(** The last line of a merge that ran to its end. *)
Definition summary_line (output : string) (merged_count : nat) : line :=
  if (0 <? merged_count)%nat
  then style (MergedTo merged_count output) Blue
  else style NoValidPdfs Red.

(** The last statements of [merge] (lines 199-205): the merge and its
    summary. *)
Definition merge_report (L : PdfLib) (pdfs : list string) (output : string) : M unit :=
  '(output_file, merged_count) <- _merge_pdfs L pdfs output ;;
  if (0 <? merged_count)%nat
  then echo (style (MergedTo merged_count output_file) Blue)
  else echo (style NoValidPdfs Red).

(* ===================================================================== *)
(** ** Sample worlds *)
(* ===================================================================== *)

(** The operations of [str] on ASCII text: on a string whose code points
    are all below 128 they are those of Python.  The sample worlds use
    them, with paths and lines that are ASCII. *)
Module AsciiStr.

Definition is_upper (c : ascii) : bool :=
  (65 <=? nat_of_ascii c)%nat && (nat_of_ascii c <=? 90)%nat.

Definition lower_char (c : ascii) : ascii :=
  if is_upper c then ascii_of_nat (nat_of_ascii c + 32) else c.

(** [s.lower()] and [s.casefold()] of an ASCII [s]: the letters A to Z
    become a to z. *)
Fixpoint lower (s : string) : string :=
  match s with
  | EmptyString => EmptyString
  | String c s' => String (lower_char c) (lower s')
  end.

(** [c.isspace()] below 128: tab, line feed, vertical tab, form feed,
    carriage return, the four separators 28..31 and the space. *)
Definition is_space (c : ascii) : bool :=
  let n := nat_of_ascii c in
  ((9 <=? n)%nat && (n <=? 13)%nat) || ((28 <=? n)%nat && (n <=? 32)%nat).

Fixpoint lstrip (s : string) : string :=
  match s with
  | EmptyString => EmptyString
  | String c s' => if is_space c then lstrip s' else s
  end.

Fixpoint rev_onto (s acc : string) : string :=
  match s with
  | EmptyString => acc
  | String c s' => rev_onto s' (String c acc)
  end.

Definition reverse (s : string) : string := rev_onto s EmptyString.

(** [s.strip()] of an ASCII [s] *)
Definition strip (s : string) : string :=
  reverse (lstrip (reverse (lstrip s))).

End AsciiStr.

Definition ascii_ops : StrOps :=
  mkStrOps AsciiStr.lower AsciiStr.strip AsciiStr.lower.

Fixpoint assoc {V} (k : string) (l : list (string * V)) : option V :=
  match l with
  | [] => None
  | (k', v) :: l' => if String.eqb k k' then Some v else assoc k l'
  end.

(** A regular file of [size] bytes. *)
Definition regular (size mtime : Z) (c : content) : node :=
  mkNode RegularFile size mtime c.

Definition directory : node := mkNode Directory 4096 0 Bytes.

(** A named pipe: it exists, it is no directory, its size reads as 0. *)
Definition pipe : node := mkNode Special 0 0 Bytes.

(** A file system with the given nodes and glob expansions, in which
    every path that is not a directory can be opened for writing. *)
Definition sample_fs (nodes : list (string * node))
    (globs : list (string * list string)) : FS :=
  mkFS (fun p => assoc p nodes)
       (fun pat => match assoc pat globs with Some ps => ps | None => [] end)
       (fun p => match assoc p nodes with Some n => negb (is_dir n) | None => true end)
       1700000000.

Definition sample_world (fs : FS) (answers : list bool) : World :=
  mkWorld fs [] answers.

(** A library that reads the documents listed in [docs] (a path and its
    pages), reports any other path as missing, compresses a page by
    leaving it as it is, and writes 100 bytes per page after a header of
    64. *)
Definition sample_lib (docs : list (string * list page)) : PdfLib :=
  mkPdfLib
    (fun p => match assoc p docs with
              | Some ps => Ok ps
              | None => Raise (FileNotFoundError p)
              end)
    (fun p => match assoc p docs with
              | Some ps => Ok (map Ok ps)
              | None => Raise (FileNotFoundError p)
              end)
    (fun pg => Ok pg)
    (fun ps => Ok (64 + 100 * Z.of_nat (List.length ps))%Z).

(** The line feed that ends a line read by [readlines]. *)
Definition nl : string := String (ascii_of_nat 10) EmptyString.

(** A directory holding two documents (each listed under its bare name
    and under the name [os.path.join(".", name)]), a document without
    pages, a sub-directory, a list file that names no PDF, one that names
    two, and a named pipe from which a document can be read. *)
Definition demo_fs : FS :=
  sample_fs
    [(".", directory);
     ("a.pdf", regular 200 1 Bytes);
     ("b.pdf", regular 264 2 Bytes);
     ("./a.pdf", regular 200 1 Bytes);
     ("./b.pdf", regular 264 2 Bytes);
     ("blank.pdf", regular 64 3 Bytes);
     ("outdir", directory);
     ("list.txt", regular 20 4 (Text [("notes.txt" ++ nl)%string; "readme.md"]));
     ("pdfs.txt", regular 24 4
        (Text [("  a.pdf" ++ nl)%string; ("notes.txt" ++ nl)%string; "b.pdf"]));
     ("pipe.pdf", pipe)]
    [("./*.pdf", ["./a.pdf"; "./b.pdf"]);
     ("*.pdf", ["a.pdf"; "b.pdf"])].

Definition demo_lib : PdfLib :=
  sample_lib
    [("a.pdf", ["A1"]); ("b.pdf", ["B1"; "B2"]);
     ("./a.pdf", ["A1"]); ("./b.pdf", ["B1"; "B2"]);
     ("blank.pdf", []); ("pipe.pdf", ["P1"])].

Definition demo_world : World := sample_world demo_fs [true].

(** [demo_lib], except that the second page of [a.pdf] cannot be read. *)
Definition torn_lib : PdfLib :=
  mkPdfLib
    (merger_append demo_lib)
    (fun p => if p =? "a.pdf"
              then Ok [Ok "A1"; Raise (PdfError "page 2")]
              else reader_pages demo_lib p)
    (compress_content_streams demo_lib)
    (serialized_size demo_lib).

(* ===================================================================== *)
(** ** Facts about strings *)
(* ===================================================================== *)

Lemma endswith_unfold (s suf : string) :
  PyStr.endswith s suf =
  String.eqb s suf ||
  match s with
  | EmptyString => false
  | String _ s' => PyStr.endswith s' suf
  end.
Proof. now destruct s. Qed.

Lemma endswith_spec (s suf : string) :
  PyStr.endswith s suf = true <-> exists p, s = (p ++ suf)%string.
Proof.
  induction s as [|c s IH]; rewrite endswith_unfold.
  - rewrite orb_false_r, String.eqb_eq. split.
    + intros <-. now exists EmptyString.
    + intros [p Hp]. destruct p; simpl in Hp; [easy | discriminate].
  - rewrite orb_true_iff, String.eqb_eq, IH. split.
    + intros [<- | [p ->]].
      * now exists EmptyString.
      * now exists (String c p).
    + intros [p Hp]. destruct p as [|d p]; simpl in Hp.
      * now left.
      * right. exists p. now injection Hp.
Qed.

Lemma isfile_spec (fs : FS) (p : string) :
  isfile fs p = true <-> regular_file fs p.
Proof.
  unfold isfile, regular_file. split.
  - destruct (lookup fs p) as [n|]; [|discriminate].
    unfold is_regular. intros H. exists n. split; [reflexivity|].
    now destruct (kind n).
  - intros [n [-> Hn]]. unfold is_regular. now rewrite Hn.
Qed.

Lemma valid_pdf_spec (fs : FS) (p : string) :
  isfile fs p && PyStr.endswith p ".pdf" = true <-> valid_pdf fs p.
Proof.
  unfold valid_pdf, pdf_suffixed.
  now rewrite andb_true_iff, isfile_spec, endswith_spec.
Qed.

(* ===================================================================== *)
(** ** The validator *)
(* ===================================================================== *)

Lemma check_pdfs_filter (fs : FS) (pdfs : list string) :
  _check_pdfs fs pdfs =
  filter (fun p => isfile fs p && PyStr.endswith p ".pdf") pdfs.
Proof.
  induction pdfs as [|p pdfs IH]; simpl; [reflexivity|].
  now destruct (isfile fs p && PyStr.endswith p ".pdf"); rewrite IH.
Qed.

Lemma selects_functional {A} (P : A -> Prop) (l l1 l2 : list A) :
  selects P l l1 -> selects P l l2 -> l1 = l2.
Proof.
  intros H1. revert l2.
  induction H1 as [|x l l1 Hx _ IH|x l l1 Hx _ IH]; intros l2 H2;
    inversion H2; subst; try contradiction; auto.
  f_equal. auto.
Qed.

(** C6.  For every sequence of candidate paths, [_check_pdfs] returns
    exactly the subsequence of the paths that name a regular file and end
    with the suffix [.pdf] (compared character by character, so case
    matters), in the order of the input; the other entries are dropped, and
    no error is possible: the validator is a total function to lists. *)
Theorem check_pdfs_selects_valid (fs : FS) (pdfs : list string) :
  selects (valid_pdf fs) pdfs (_check_pdfs fs pdfs).
Proof.
  induction pdfs as [|p pdfs IH]; simpl.
  - constructor.
  - destruct (isfile fs p && PyStr.endswith p ".pdf") eqn:E.
    + apply selects_keep; [now apply valid_pdf_spec | exact IH].
    + apply selects_drop; [|exact IH].
      intros H. apply valid_pdf_spec in H. congruence.
Qed.

Lemma check_pdfs_in (fs : FS) (pdfs : list string) (p : string) :
  In p (_check_pdfs fs pdfs) <-> In p pdfs /\ valid_pdf fs p.
Proof.
  now rewrite check_pdfs_filter, filter_In, valid_pdf_spec.
Qed.

(** C10.  The validator is idempotent: a second pass over its own result
    drops nothing. *)
Theorem check_pdfs_idempotent (fs : FS) (pdfs : list string) :
  _check_pdfs fs (_check_pdfs fs pdfs) = _check_pdfs fs pdfs.
Proof.
  induction pdfs as [|p pdfs IH]; simpl; [reflexivity|].
  destruct (isfile fs p && PyStr.endswith p ".pdf") eqn:E; simpl.
  - now rewrite E, IH.
  - exact IH.
Qed.

(* ===================================================================== *)
(** ** The stable sort *)
(* ===================================================================== *)

Section SortFacts.

Variables (A K : Type).
Variable lt : K -> K -> bool.

Lemma insert_perm (x : K * A) (run : list (K * A)) :
  Permutation (insert lt x run) (x :: run).
Proof.
  induction run as [|y run IH]; simpl; [reflexivity|].
  destruct (lt (fst y) (fst x)); [|reflexivity].
  rewrite IH. apply perm_swap.
Qed.

Lemma stable_sort_perm (l : list (K * A)) :
  Permutation (stable_sort lt l) l.
Proof.
  induction l as [|x l IH]; simpl; [reflexivity|].
  now rewrite insert_perm, IH.
Qed.

Lemma sort_decorated_perm (reverse : bool) (l : list (K * A)) :
  Permutation (sort_decorated lt reverse l) l.
Proof.
  unfold sort_decorated. destruct reverse.
  - now rewrite <- Permutation_rev, stable_sort_perm, <- Permutation_rev.
  - apply stable_sort_perm.
Qed.

(** The order on the keys is a strict total order. *)
Hypothesis lt_irrefl : forall x, lt x x = false.
Hypothesis lt_trans : forall x y z, lt x y = true -> lt y z = true -> lt x z = true.
Hypothesis lt_connex : forall x y, lt x y = false -> lt y x = false -> x = y.

Lemma lt_asym (x y : K) : lt x y = true -> lt y x = false.
Proof.
  intros H. destruct (lt y x) eqn:E; [|reflexivity].
  pose proof (lt_trans H E) as F. now rewrite lt_irrefl in F.
Qed.

Lemma key_le_trans (a b c : K * A) :
  key_le lt a b -> key_le lt b c -> key_le lt a c.
Proof.
  unfold key_le. intros Hab Hbc.
  destruct (lt (fst c) (fst a)) eqn:Hca; [|reflexivity].
  destruct (lt (fst a) (fst b)) eqn:E.
  - now rewrite (lt_trans Hca E) in Hbc.
  - rewrite (lt_connex Hab E) in Hbc. congruence.
Qed.

Lemma insert_sorted (x : K * A) (run : list (K * A)) :
  StronglySorted (key_le lt) run -> StronglySorted (key_le lt) (insert lt x run).
Proof.
  induction run as [|y run IH]; simpl; intros Hs.
  - constructor; constructor.
  - apply StronglySorted_inv in Hs. destruct Hs as [Hs Hy].
    destruct (lt (fst y) (fst x)) eqn:E.
    + constructor; [now apply IH|].
      rewrite insert_perm. constructor; [|exact Hy].
      now apply lt_asym.
    + constructor; [now constructor|].
      constructor; [exact E|].
      eapply Forall_impl; [|exact Hy].
      intros c Hc. now apply key_le_trans with y.
Qed.

Lemma stable_sort_sorted (l : list (K * A)) :
  StronglySorted (key_le lt) (stable_sort lt l).
Proof.
  induction l as [|x l IH]; simpl; [constructor|now apply insert_sorted].
Qed.

(** Stability.  [sel] picks elements no two of which are ordered by their
    keys (the elements of one key, say): the sort leaves them as they
    were. *)
Section Stable.

Variable sel : K * A -> bool.
Hypothesis sel_unordered :
  forall a b, sel a = true -> sel b = true -> lt (fst a) (fst b) = false.

Lemma filter_insert (x : K * A) (run : list (K * A)) :
  filter sel (insert lt x run) = filter sel (x :: run).
Proof.
  induction run as [|y run IH]; [reflexivity|].
  cbn [insert]. destruct (lt (fst y) (fst x)) eqn:E; [|reflexivity].
  cbn [filter] in *. rewrite IH.
  destruct (sel y) eqn:Sy, (sel x) eqn:Sx; try reflexivity.
  now rewrite (sel_unordered Sy Sx) in E.
Qed.

Lemma filter_stable_sort (l : list (K * A)) :
  filter sel (stable_sort lt l) = filter sel l.
Proof.
  induction l as [|x l IH]; [reflexivity|].
  cbn [stable_sort]. rewrite filter_insert. cbn [filter]. now rewrite IH.
Qed.

Lemma filter_sort_decorated (reverse : bool) (l : list (K * A)) :
  filter sel (sort_decorated lt reverse l) = filter sel l.
Proof.
  unfold sort_decorated. destruct reverse.
  - now rewrite filter_rev, filter_stable_sort, filter_rev, rev_involutive.
  - apply filter_stable_sort.
Qed.

End Stable.

(** Two sorted arrangements of elements with distinct keys are equal. *)
Lemma sorted_unique (l1 l2 : list (K * A)) :
  NoDup (map fst l1) ->
  StronglySorted (key_le lt) l1 -> StronglySorted (key_le lt) l2 ->
  Permutation l1 l2 -> l1 = l2.
Proof.
  revert l2. induction l1 as [|a l1 IH]; intros l2 Hnd H1 H2 Hp.
  - now apply Permutation_nil in Hp.
  - destruct l2 as [|b l2]; [now apply Permutation_sym, Permutation_nil in Hp|].
    apply StronglySorted_inv in H1. destruct H1 as [H1 Ha].
    apply StronglySorted_inv in H2. destruct H2 as [H2 Hb].
    assert (a = b) as ->.
    { assert (In a (b :: l2)) as [<-|Ia] by (eapply Permutation_in; [exact Hp|now left]);
        [reflexivity|].
      assert (In b (a :: l1)) as [->|Ib]
          by (eapply Permutation_in; [exact (Permutation_sym Hp)|now left]);
        [reflexivity|].
      rewrite Forall_forall in Ha, Hb.
      pose proof (lt_connex (Ha _ Ib) (Hb _ Ia)) as Hk.
      inversion Hnd as [|? ? Hn _]; subst. exfalso. apply Hn.
      rewrite <- Hk. now apply in_map. }
    f_equal. apply IH; auto.
    + now inversion Hnd.
    + now apply Permutation_cons_inv with b.
Qed.

Lemma sort_decorated_reverse (l : list (K * A)) :
  NoDup (map fst l) ->
  sort_decorated lt true l = rev (sort_decorated lt false l).
Proof.
  intros Hnd. unfold sort_decorated. f_equal.
  apply sorted_unique; try apply stable_sort_sorted.
  - rewrite stable_sort_perm, map_rev. now apply NoDup_rev.
  - now rewrite !stable_sort_perm, <- Permutation_rev.
Qed.

End SortFacts.

(** The same facts for a list sorted by a key function, as [list.sort]
    decorates it. *)
Section KeyedSort.

Variables (A K : Type).
Variable lt : K -> K -> bool.
Variable key : A -> K.

Hypothesis lt_irrefl : forall x, lt x x = false.
Hypothesis lt_trans : forall x y z, lt x y = true -> lt y z = true -> lt x z = true.
Hypothesis lt_connex : forall x y, lt x y = false -> lt y x = false -> x = y.

Lemma combine_keys (l : list A) : combine (map key l) l = map (decorate key) l.
Proof. induction l as [|x l IH]; simpl; [reflexivity|now rewrite IH]. Qed.

Lemma map_snd_dec (l : list A) : map snd (map (decorate key) l) = l.
Proof. rewrite map_map. simpl. apply map_id. Qed.

Lemma sorted_by_decorated (reverse : bool) (l : list A) :
  sort_decorated lt reverse (map (decorate key) l) =
  map (decorate key) (sorted_by lt key reverse l).
Proof.
  unfold sorted_by. rewrite combine_keys.
  assert (Forall (fun p => decorate key (snd p) = p)
            (sort_decorated lt reverse (map (decorate key) l))) as H.
  { rewrite sort_decorated_perm. apply Forall_forall.
    intros p Hp. apply in_map_iff in Hp. now destruct Hp as [x [<- _]]. }
  induction H as [|p s Hp _ IH]; simpl; [reflexivity|].
  now rewrite Hp, <- IH.
Qed.

Lemma sorted_by_perm (reverse : bool) (l : list A) :
  Permutation (sorted_by lt key reverse l) l.
Proof.
  unfold sorted_by. rewrite combine_keys, sort_decorated_perm.
  now rewrite map_snd_dec.
Qed.

Lemma strongly_sorted_map (R : K * A -> K * A -> Prop) (l : list A) :
  StronglySorted R (map (decorate key) l) ->
  StronglySorted (fun a b => R (decorate key a) (decorate key b)) l.
Proof.
  induction l as [|x l IH]; simpl; intros H; [constructor|].
  apply StronglySorted_inv in H. destruct H as [H Hx].
  constructor; [now apply IH|].
  rewrite Forall_forall in *. intros y Hy. apply Hx. now apply in_map.
Qed.

Lemma sorted_by_ascending (l : list A) :
  StronglySorted (fun a b => lt (key b) (key a) = false) (sorted_by lt key false l).
Proof.
  apply strongly_sorted_map with (R := key_le lt).
  rewrite <- sorted_by_decorated. apply stable_sort_sorted; assumption.
Qed.

Lemma filter_map_dec (sel : K * A -> bool) (l : list A) :
  filter sel (map (decorate key) l) =
  map (decorate key) (filter (fun x => sel (decorate key x)) l).
Proof.
  induction l as [|x l IH]; simpl; [reflexivity|].
  rewrite IH. now destruct (sel (decorate key x)).
Qed.

Lemma sorted_by_stable (reverse : bool) (p : K -> bool) (l : list A) :
  (forall j k, p j = true -> p k = true -> lt j k = false) ->
  filter (fun x => p (key x)) (sorted_by lt key reverse l) =
  filter (fun x => p (key x)) l.
Proof.
  intros Hp.
  rewrite <- (map_snd_dec (filter _ (sorted_by lt key reverse l))).
  rewrite <- (filter_map_dec (fun q => p (fst q))).
  rewrite <- sorted_by_decorated, filter_sort_decorated.
  - now rewrite filter_map_dec, map_snd_dec.
  - intros a b. apply Hp.
Qed.

Lemma sorted_by_reverse (l : list A) :
  NoDup (map key l) -> sorted_by lt key true l = rev (sorted_by lt key false l).
Proof.
  intros Hnd. unfold sorted_by. rewrite <- map_rev. f_equal.
  apply sort_decorated_reverse; try assumption.
  rewrite combine_keys, map_map. simpl. exact Hnd.
Qed.

End KeyedSort.

(** [String.ltb] is a strict total order. *)
Lemma ascii_compare_lt_trans (a b c : ascii) :
  Ascii.compare a b = Lt -> Ascii.compare b c = Lt -> Ascii.compare a c = Lt.
Proof.
  unfold Ascii.compare. rewrite !N.compare_lt_iff. apply N.lt_trans.
Qed.

Lemma ascii_compare_refl (c : ascii) : Ascii.compare c c = Eq.
Proof. unfold Ascii.compare. apply N.compare_refl. Qed.

Lemma string_compare_refl (s : string) : String.compare s s = Eq.
Proof.
  induction s as [|c s IH]; simpl; [reflexivity|].
  now rewrite ascii_compare_refl.
Qed.

Lemma string_compare_lt_trans (s1 s2 s3 : string) :
  String.compare s1 s2 = Lt -> String.compare s2 s3 = Lt ->
  String.compare s1 s3 = Lt.
Proof.
  revert s2 s3. induction s1 as [|a s1 IH]; intros [|b s2] [|c s3]; simpl;
    try discriminate; try reflexivity.
  destruct (Ascii.compare a b) eqn:Eab; try discriminate;
    destruct (Ascii.compare b c) eqn:Ebc; try discriminate.
  - apply Ascii.compare_eq_iff in Eab, Ebc. subst.
    rewrite ascii_compare_refl. apply IH.
  - apply Ascii.compare_eq_iff in Eab. subst. now rewrite Ebc.
  - apply Ascii.compare_eq_iff in Ebc. subst. now rewrite Eab.
  - now rewrite (ascii_compare_lt_trans _ _ _ Eab Ebc).
Qed.

Lemma string_ltb_irrefl (s : string) : String.ltb s s = false.
Proof. unfold String.ltb. now rewrite string_compare_refl. Qed.

Lemma string_ltb_trans (x y z : string) :
  String.ltb x y = true -> String.ltb y z = true -> String.ltb x z = true.
Proof.
  unfold String.ltb.
  destruct (String.compare x y) eqn:Exy; try discriminate.
  destruct (String.compare y z) eqn:Eyz; try discriminate.
  now rewrite (string_compare_lt_trans _ _ _ Exy Eyz).
Qed.

Lemma string_ltb_connex (x y : string) :
  String.ltb x y = false -> String.ltb y x = false -> x = y.
Proof.
  unfold String.ltb. rewrite (String.compare_antisym y x).
  destruct (String.compare x y) eqn:E; simpl; try discriminate.
  intros _ _. now apply String.compare_eq_iff.
Qed.

Lemma string_not_ltb_leb (x y : string) :
  String.ltb y x = false <-> String.leb x y = true.
Proof.
  unfold String.ltb, String.leb. rewrite (String.compare_antisym x y).
  destruct (String.compare y x); simpl; split; congruence.
Qed.

(* ===================================================================== *)
(** ** The sorter *)
(* ===================================================================== *)

Lemma map_M_ret {A B} (f : A -> B) (xs : list A) (w : World) :
  map_M (fun x => ret (f x)) xs w = (Ok (map f xs), w).
Proof.
  induction xs as [|x xs IH]; [reflexivity|].
  cbn [map_M map]. unfold bind at 1. unfold ret at 1.
  unfold bind at 1. now rewrite IH.
Qed.

Lemma list_sort_pure {K} (lt : K -> K -> bool) (key : string -> K)
    (reverse : bool) (files : list string) (w : World) :
  list_sort lt (fun name => ret (key name)) reverse files w =
  (Ok (sorted_by lt key reverse files), w).
Proof.
  unfold list_sort, bind. now rewrite map_M_ret.
Qed.

Lemma sort_pdfs_name (T : StrOps) (files : list string) (w : World) :
  _sort_pdfs T files (Some "name") w =
  (Ok (sorted_by String.ltb (lower T) false files),
   announce w (style (SortingBy "name" false) Yellow)).
Proof.
  unfold _sort_pdfs. cbn -[sort_by]. unfold bind, echo, sort_by.
  now rewrite list_sort_pure.
Qed.

Lemma sort_pdfs_name_descending (T : StrOps) (files : list string) (w : World) :
  _sort_pdfs T files (Some "^name") w =
  (Ok (sorted_by String.ltb (lower T) true files),
   announce w (style (SortingBy "name" true) Yellow)).
Proof.
  unfold _sort_pdfs. cbn -[sort_by]. unfold bind, echo, sort_by.
  now rewrite list_sort_pure.
Qed.

Lemma strongly_sorted_impl {A} (R R' : A -> A -> Prop) (l : list A) :
  (forall a b, R a b -> R' a b) -> StronglySorted R l -> StronglySorted R' l.
Proof.
  intros HR H. induction H as [|a l _ IH Ha]; constructor; [exact IH|].
  eapply Forall_impl; [|exact Ha]. intros b. apply HR.
Qed.

Lemma named_sorted_by (T : StrOps) (reverse : bool) (k : string)
    (files : list string) :
  named T k (sorted_by String.ltb (lower T) reverse files) = named T k files.
Proof.
  unfold named.
  apply (sorted_by_stable String.ltb (lower T) reverse (fun j => j =? k)).
  intros i j Hi Hj. apply String.eqb_eq in Hi, Hj. subst.
  apply string_ltb_irrefl.
Qed.

(** C7.  Whatever [str.lower] makes of a string (every [T]), and for
    every list of paths: sorting with [name] gives the paths in the order
    of their lower-cased full strings, compared code point by code point,
    and is stable: the paths of one lower-cased name stay in the order
    they had.  For paths with pairwise distinct lower-cased names, sorting
    with [^name] gives the reverse of that list (and is stable as well for
    any list).  Without a sort option the list comes back as it was. *)
Theorem sort_pdfs_by_name (T : StrOps) (files : list string) (w : World) :
  exists ascending descending,
    fst (_sort_pdfs T files (Some "name") w) = Ok ascending /\
    fst (_sort_pdfs T files (Some "^name") w) = Ok descending /\
    Permutation ascending files /\
    StronglySorted (name_le T) ascending /\
    (forall k, named T k ascending = named T k files) /\
    (forall k, named T k descending = named T k files) /\
    (NoDup (map (lower T) files) -> descending = rev ascending) /\
    _sort_pdfs T files None w = (Ok files, w).
Proof.
  exists (sorted_by String.ltb (lower T) false files),
         (sorted_by String.ltb (lower T) true files).
  rewrite sort_pdfs_name, sort_pdfs_name_descending.
  repeat split.
  - apply sorted_by_perm.
  - eapply strongly_sorted_impl.
    2: { apply sorted_by_ascending.
         - exact string_ltb_irrefl.
         - exact string_ltb_trans.
         - exact string_ltb_connex. }
    intros a b H. now apply string_not_ltb_leb.
  - intros k. apply named_sorted_by.
  - intros k. apply named_sorted_by.
  - apply sorted_by_reverse.
    + exact string_ltb_irrefl.
    + exact string_ltb_trans.
    + exact string_ltb_connex.
Qed.

(* ===================================================================== *)
(** ** The merger *)
(* ===================================================================== *)

Section MergeFacts.

Variable L : PdfLib.

Lemma merge_loop_run (files : list string) (n : nat) (pages : list page) (w : World) :
  merge_loop L files n pages w =
  (Ok (n + appended_count L files, pages ++ appended_pages L files),
   mkWorld (fs w) (console w ++ map (append_line L) files) (answers w)).
Proof.
  revert n pages w. induction files as [|file files IH]; intros n pages w.
  - simpl. unfold ret, appended_count. simpl.
    rewrite Nat.add_0_r, !app_nil_r. now destruct w.
  - cbn [merge_loop]. unfold appended_count, appended_pages in *.
    cbn [filter flat_map map]. unfold append_line at 1, appends at 1, pages_of at 1.
    destruct (merger_append L file) as [added|e].
    + unfold bind, echo. rewrite IH. cbn [fs console answers List.length].
      now rewrite <- !app_assoc, Nat.add_1_r, Nat.add_succ_comm.
    + assert (forall m : line,
        (echo m ;; merge_loop L files n pages) w =
        (Ok (n + List.length (filter (appends L) files),
             pages ++ flat_map (pages_of L) files),
         mkWorld (fs w) (console w ++ m :: map (append_line L) files) (answers w))) as H.
      { intros m. unfold bind, echo. rewrite IH. cbn [fs console answers].
        now rewrite <- app_assoc. }
      rewrite app_nil_l.
      destruct e; apply H.
Qed.

Lemma appended_count_le (files : list string) :
  appended_count L files <= List.length files.
Proof. apply filter_length_le. Qed.

Lemma appended_pages_count (files : list string) :
  appended_pages L files <> [] -> appended_count L files <> 0.
Proof.
  unfold appended_pages, appended_count.
  induction files as [|f files IH]; simpl; [congruence|].
  unfold pages_of at 1, appends at 1.
  destruct (merger_append L f); simpl; [discriminate|exact IH].
Qed.

(** The four ways [_merge_pdfs] ends. *)
Lemma merge_pdfs_run (files : list string) (output : string) (w : World) :
  let pages := appended_pages L files in
  let w1 := mkWorld (fs w) (console w ++ map (append_line L) files) (answers w) in
  _merge_pdfs L files output w =
  if nonempty pages then
    if writable (fs w) output then
      let emptied := fs_put (fs w) output (mkNode RegularFile 0 (now (fs w)) Bytes) in
      match serialized_size L pages with
      | Ok size =>
          (Ok (output, appended_count L files),
           mkWorld (fs_put emptied output
                      (mkNode RegularFile size (now (fs w)) (Document pages)))
                   (console w1) (answers w))
      | Raise e => (Raise e, mkWorld emptied (console w1) (answers w))
      end
    else (Raise (OSError output), w1)
  else (Ok (output, appended_count L files), w1).
Proof.
  intros pages w1. unfold _merge_pdfs, bind at 1.
  rewrite merge_loop_run. cbn [app Nat.add]. fold pages. fold w1.
  destruct (nonempty pages) eqn:Hp.
  - unfold bind at 1. unfold write_document, bind at 1, open_wb.
    cbn [fs w1]. destruct (writable (fs w) output); [|reflexivity].
    unfold bind at 1, lift. destruct (serialized_size L pages); reflexivity.
  - reflexivity.
Qed.

(** C2 (amended).  When [_merge_pdfs] returns, it returns the output name
    with the number of files that appended, and it has written the output
    file exactly when at least one page was appended: then the file holds
    the appended pages, no other path has changed, and the count is not
    zero; when no page was appended, and so whenever the count is zero,
    the file system is as it was. *)
Theorem merge_pdfs_writes_iff_pages
    (files : list string) (output : string) (w w' : World) (r : string * nat) :
  _merge_pdfs L files output w = (Ok r, w') ->
  r = (output, appended_count L files) /\
  ((appended_pages L files <> [] /\ appended_count L files <> 0 /\
    written (fs w) (fs w') output (appended_pages L files))
   \/ (appended_pages L files = [] /\ fs w' = fs w)) /\
  (appended_count L files = 0 -> fs w' = fs w).
Proof.
  rewrite merge_pdfs_run. cbv zeta.
  destruct (appended_pages L files) as [|pg pages] eqn:Hp; cbn [nonempty].
  - intros H. injection H as <- <-. repeat split; auto.
  - pose proof (appended_pages_count files) as Hc. rewrite Hp in Hc.
    specialize (Hc ltac:(discriminate)).
    destruct (writable (fs w) output); [|discriminate].
    destruct (serialized_size L (pg :: pages)) as [size|e]; [|discriminate].
    intros H. injection H as <- <-. cbn [fs].
    split; [reflexivity|]. split; [|congruence].
    left. split; [discriminate|]. split; [exact Hc|]. split.
    + exists size, (now (fs w)). cbn. now rewrite String.eqb_refl.
    + intros p Hne. cbn. apply String.eqb_neq in Hne. now rewrite Hne.
Qed.

(** C9 (amended).  [_merge_pdfs] ends in one of two ways.  Either it returns
    the output name it was given together with a count between 0 and the
    number of input files; or writing the output raises, which needs at
    least one appended page and an output that cannot be opened or
    serialised, and then the exception leaves the function. *)
Theorem merge_pdfs_result (files : list string) (output : string) (w : World) :
  (exists n w',
      _merge_pdfs L files output w = (Ok (output, n), w') /\
      0 <= n <= List.length files) \/
  (exists e w',
      _merge_pdfs L files output w = (Raise e, w') /\
      appended_pages L files <> [] /\
      ((writable (fs w) output = false /\ e = OSError output) \/
       serialized_size L (appended_pages L files) = Raise e)).
Proof.
  rewrite merge_pdfs_run. cbv zeta.
  pose proof (appended_count_le files) as Hle.
  destruct (appended_pages L files) as [|pg pages] eqn:Hp; cbn [nonempty].
  - left. eexists _, _. split; [reflexivity|lia].
  - destruct (writable (fs w) output).
    + destruct (serialized_size L (pg :: pages)) as [size|e] eqn:Hs.
      * left. eexists _, _. split; [reflexivity|lia].
      * right. eexists _, _. split; [reflexivity|].
        split; [discriminate|now right].
    + right. eexists _, _. split; [reflexivity|].
      split; [discriminate|now left].
Qed.

Lemma appends_pages_of (f : string) (e : exn) :
  merger_append L f = Raise e -> appends L f = false /\ pages_of L f = [].
Proof. unfold appends, pages_of. now intros ->. Qed.

Lemma append_line_ok (fs : list string) :
  Forall (fun f => appends L f = true) fs ->
  map (append_line L) fs = map (fun f => style (Appended f) Green) fs /\
  filter (appends L) fs = fs.
Proof.
  induction 1 as [|f fs Hf _ [IH1 IH2]]; [now split|].
  cbn [map filter]. rewrite Hf, IH1, IH2. split; [|reflexivity]. f_equal.
  unfold append_line. unfold appends in Hf.
  now destruct (merger_append L f).
Qed.

(** C5 (amended).  When one path of the list fails to append and all the
    others append, the loop still runs to its end: one warning is printed,
    for the failing path, between the lines of the files appended before
    and after it; the count is the number of files less one and the pages
    are those of the other files in order.  If these pages are not empty
    and the output can be opened and serialised, [_merge_pdfs] returns the
    output name with that count and the output file holds exactly these
    pages; if there is no page at all, it returns the same pair and
    writes nothing. *)
Theorem merge_pdfs_skips_bad_file
    (pre post : list string) (bad : string) (e : exn) (output : string) (w : World) :
  merger_append L bad = Raise e ->
  Forall (fun f => appends L f = true) (pre ++ post) ->
  let files := pre ++ bad :: post in
  let pages := appended_pages L (pre ++ post) in
  let printed :=
    map (fun f => style (Appended f) Green) pre ++
    skip_line bad e :: map (fun f => style (Appended f) Green) post in
  let w1 := mkWorld (fs w) (console w ++ printed) (answers w) in
  merge_loop L files 0 [] w = (Ok (List.length files - 1, pages), w1) /\
  (pages = [] ->
   _merge_pdfs L files output w = (Ok (output, List.length files - 1), w1)) /\
  (pages <> [] -> writable (fs w) output = true ->
   forall size, serialized_size L pages = Ok size ->
   exists w',
     _merge_pdfs L files output w = (Ok (output, List.length files - 1), w') /\
     console w' = console w ++ printed /\
     written (fs w) (fs w') output pages).
Proof.
  intros Hbad Hok files pages printed w1.
  destruct (appends_pages_of bad Hbad) as [Hb1 Hb2].
  apply Forall_app in Hok. destruct Hok as [Hpre Hpost].
  destruct (append_line_ok Hpre) as [Lpre Fpre].
  destruct (append_line_ok Hpost) as [Lpost Fpost].
  assert (map (append_line L) files = printed) as Hlines.
  { unfold files, printed. rewrite map_app. cbn [map]. rewrite Lpre, Lpost.
    do 2 f_equal. unfold append_line, skip_line. rewrite Hbad. now destruct e. }
  assert (appended_count L files = List.length files - 1) as Hcount.
  { unfold appended_count, files. rewrite filter_app. cbn [filter].
    rewrite Hb1, Fpre, Fpost, !length_app. cbn [List.length]. lia. }
  assert (appended_pages L files = pages) as Hpages.
  { unfold files, pages, appended_pages. rewrite !flat_map_app. cbn [flat_map].
    now rewrite Hb2. }
  split; [|split].
  - rewrite merge_loop_run, Hlines, Hcount, Hpages. reflexivity.
  - intros Hnil. rewrite merge_pdfs_run. cbv zeta.
    rewrite Hpages, Hnil, Hlines, Hcount. reflexivity.
  - intros Hne Hw size Hs. rewrite merge_pdfs_run. cbv zeta.
    rewrite Hpages, Hlines, Hcount, Hw, Hs.
    destruct pages as [|pg rest]; [congruence|]. cbn [nonempty].
    eexists. split; [reflexivity|]. cbn [console fs]. split; [reflexivity|].
    split.
    + exists size, (now (fs w)). cbn. now rewrite String.eqb_refl.
    + intros p Hp. cbn. apply String.eqb_neq in Hp. now rewrite Hp.
Qed.

End MergeFacts.

(** The amended C2 on a run that writes: two documents around a missing
    file. *)
Lemma merge_pdfs_writes_iff_pages_witness :
  let files := ["a.pdf"; "missing.pdf"; "b.pdf"] in
  let w' := snd (_merge_pdfs demo_lib files "merged.pdf" demo_world) in
  ("merged.pdf", 2) = ("merged.pdf", appended_count demo_lib files) /\
  ((appended_pages demo_lib files <> [] /\ appended_count demo_lib files <> 0 /\
    written (fs demo_world) (fs w') "merged.pdf" (appended_pages demo_lib files))
   \/ (appended_pages demo_lib files = [] /\ fs w' = fs demo_world)) /\
  (appended_count demo_lib files = 0 -> fs w' = fs demo_world).
Proof.
  apply (@merge_pdfs_writes_iff_pages demo_lib
           ["a.pdf"; "missing.pdf"; "b.pdf"] "merged.pdf" demo_world).
  reflexivity.
Defined.

(** C2 as stated fails: a document without pages appends, so the count
    returned is 1, and yet no output file exists afterwards. *)
Lemma merge_pdfs_count_without_output :
  let run := _merge_pdfs demo_lib ["blank.pdf"] "merged.pdf" demo_world in
  merger_append demo_lib "blank.pdf" = Ok [] /\
  fst run = Ok ("merged.pdf", 1) /\
  lookup (fs (snd run)) "merged.pdf" = None.
Proof. repeat split. Qed.

(** C9 as stated fails: with an output name that cannot be opened for
    writing (here a directory) and a page to write, no pair is returned. *)
Lemma merge_pdfs_raises_at_write :
  isfile demo_fs "outdir" = false /\
  fst (_merge_pdfs demo_lib ["a.pdf"] "outdir" demo_world) = Raise (OSError "outdir").
Proof. split; reflexivity. Qed.

(** The amended C5 on the list [a.pdf, missing.pdf, b.pdf]. *)
Lemma merge_pdfs_skips_bad_file_witness :
  exists w',
    _merge_pdfs demo_lib ["a.pdf"; "missing.pdf"; "b.pdf"] "merged.pdf" demo_world
    = (Ok ("merged.pdf", 2), w') /\
    console w' =
      [style (Appended "a.pdf") Green;
       style (NotFoundSkipping "missing.pdf") Red;
       style (Appended "b.pdf") Green] /\
    written demo_fs (fs w') "merged.pdf" ["A1"; "B1"; "B2"].
Proof.
  destruct (@merge_pdfs_skips_bad_file demo_lib ["a.pdf"] ["b.pdf"] "missing.pdf"
              (FileNotFoundError "missing.pdf") "merged.pdf" demo_world
              eq_refl ltac:(repeat constructor)) as (_ & _ & H).
  apply (H ltac:(discriminate) eq_refl 364%Z eq_refl).
Defined.

(** C5 as stated fails for a list of one path: that path fails, the other
    zero paths append, the count is N - 1 = 0, and no output file is
    written. *)
Lemma merge_pdfs_single_missing_file :
  let run := _merge_pdfs demo_lib ["missing.pdf"] "merged.pdf" demo_world in
  merger_append demo_lib "missing.pdf" = Raise (FileNotFoundError "missing.pdf") /\
  fst run = Ok ("merged.pdf", 0) /\
  console (snd run) = [style (NotFoundSkipping "missing.pdf") Red] /\
  lookup (fs (snd run)) "merged.pdf" = None.
Proof. repeat split. Qed.

(* ===================================================================== *)
(** ** The [merge] command *)
(* ===================================================================== *)

Lemma for_each_echo {A} (f : A -> line) (body : A -> M unit) (xs : list A) (w : World) :
  (forall x, body x = echo (f x)) ->
  for_each xs body w = (Ok tt, mkWorld (fs w) (console w ++ map f xs) (answers w)).
Proof.
  intros Hb. revert w. induction xs as [|x xs IH]; intros w.
  - simpl. unfold ret. rewrite app_nil_r. now destruct w.
  - cbn [for_each map]. unfold bind. rewrite Hb. unfold echo at 1.
    rewrite IH. cbn [fs console answers]. now rewrite <- app_assoc.
Qed.

Lemma display_pdfs_run (pdfs : list string) (w : World) :
  _display_pdfs pdfs w =
  (Ok tt, mkWorld (fs w) (console w ++ preview pdfs) (answers w)).
Proof.
  unfold _display_pdfs, bind at 1, echo at 1.
  rewrite for_each_echo with (f := fun ip => plain (Item (fst ip + 1) (snd ip))).
  - cbn [fs console answers]. unfold preview. now rewrite <- app_assoc.
  - now intros [i p].
Qed.

Lemma map_M_reads {A B} (f : A -> M B) (g : FS -> A -> result B) (xs : list A) (w : World) :
  (forall x w, f x w = (g (fs w) x, w)) ->
  map_M f xs w = (all_ok (g (fs w)) xs, w).
Proof.
  intros Hf. induction xs as [|x xs IH]; [reflexivity|].
  cbn [map_M all_ok]. unfold bind at 1. rewrite Hf.
  destruct (g (fs w) x); [|reflexivity].
  unfold bind at 1. rewrite IH. now destruct (all_ok (g (fs w)) xs).
Qed.

Lemma all_ok_length {A B} (g : A -> result B) (xs : list A) (ys : list B) :
  all_ok g xs = Ok ys -> List.length ys = List.length xs.
Proof.
  revert ys. induction xs as [|x xs IH]; simpl; intros ys H.
  - now injection H as <-.
  - destruct (g x); [|discriminate].
    destruct (all_ok g xs) as [zs|]; [|discriminate].
    injection H as <-. simpl. f_equal. now apply IH.
Qed.

Lemma all_ok_total {A B} (g : A -> result B) (xs : list A) :
  Forall (fun x => exists y, g x = Ok y) xs -> exists ys, all_ok g xs = Ok ys.
Proof.
  induction 1 as [|x xs [y Hy] _ [ys IH]]; simpl.
  - now exists [].
  - rewrite Hy, IH. now eexists.
Qed.

Lemma map_snd_combine {A B} (ks : list A) (xs : list B) :
  List.length ks = List.length xs -> map snd (combine ks xs) = xs.
Proof.
  revert xs. induction ks as [|k ks IH]; intros [|x xs]; simpl; try discriminate;
    [reflexivity|].
  intros H. f_equal. apply IH. now injection H.
Qed.

Lemma list_sort_reads {K} (lt : K -> K -> bool) (f : string -> M K)
    (g : FS -> string -> result K) (reverse : bool) (files : list string) (w : World) :
  (forall x w, f x w = (g (fs w) x, w)) ->
  list_sort lt f reverse files w =
  (match all_ok (g (fs w)) files with
   | Ok keys => Ok (map snd (sort_decorated lt reverse (combine keys files)))
   | Raise e => Raise e
   end, w).
Proof.
  intros Hf. unfold list_sort, bind. rewrite (map_M_reads _ g _ _ Hf).
  now destruct (all_ok (g (fs w)) files).
Qed.

Lemma list_sort_found {K} (lt : K -> K -> bool) (g : FS -> string -> result K)
    (reverse : bool) (files : list string) (fs : FS) :
  Forall (fun x => exists y, g fs x = Ok y) files ->
  exists s,
    match all_ok (g fs) files with
    | Ok keys => Ok (map snd (sort_decorated lt reverse (combine keys files)))
    | Raise e => Raise e
    end = Ok s /\ Permutation s files.
Proof.
  intros H. destruct (all_ok_total _ H) as [keys Hk]. rewrite Hk.
  eexists. split; [reflexivity|].
  rewrite sort_decorated_perm, map_snd_combine; [reflexivity|].
  now apply all_ok_length with (g := g fs).
Qed.

Lemma getsize_reads (p : string) (w : World) :
  getsize p w = (stat_field st_size (fs w) p, w).
Proof. unfold getsize, stat_field. now destruct (lookup (fs w) p). Qed.

Lemma getmtime_reads (p : string) (w : World) :
  getmtime p w = (stat_field st_mtime (fs w) p, w).
Proof. unfold getmtime, stat_field. now destruct (lookup (fs w) p). Qed.

(** The keys of paths that exist can be read, so sorting them does not
    raise; and the outcome depends on the file system alone. *)
Lemma sort_by_run (T : StrOps) (k : sort_key) (reverse : bool)
    (files : list string) (w : World) :
  exists r,
    (forall w', fs w' = fs w -> sort_by T k reverse files w' = (r, w')) /\
    (Forall (fun p => isfile (fs w) p = true) files ->
     exists s, r = Ok s /\ Permutation s files).
Proof.
  assert (forall field,
    Forall (fun p => isfile (fs w) p = true) files ->
    Forall (fun x => exists y, stat_field field (fs w) x = Ok y) files) as Hstat.
  { intros field. apply Forall_impl. intros p. unfold isfile, stat_field.
    destruct (lookup (fs w) p); [now eexists|discriminate]. }
  destruct k; cbn [sort_by]; eexists; split.
  - intros w' _. apply list_sort_pure.
  - intros _. eexists. split; [reflexivity|]. apply sorted_by_perm.
  - intros w' E. rewrite (list_sort_reads _ _ (stat_field st_mtime) _ _ _ getmtime_reads).
    rewrite E. reflexivity.
  - intros H. apply list_sort_found with (g := stat_field st_mtime). now apply Hstat.
  - intros w' E. rewrite (list_sort_reads _ _ (stat_field st_size) _ _ _ getsize_reads).
    rewrite E. reflexivity.
  - intros H. apply list_sort_found with (g := stat_field st_size). now apply Hstat.
Qed.

Lemma announce_nothing (w : World) :
  mkWorld (fs w) (console w ++ []) (answers w) = w.
Proof. rewrite app_nil_r. now destruct w. Qed.

Lemma sort_pdfs_run (T : StrOps) (files : list string) (sort : option string) (w : World) :
  exists r printed,
    (forall w', fs w' = fs w ->
       _sort_pdfs T files sort w' =
       (r, mkWorld (fs w') (console w' ++ printed) (answers w'))) /\
    attempted printed = [] /\
    (Forall (fun p => isfile (fs w) p = true) files ->
     exists s, r = Ok s /\ Permutation s files).
Proof.
  assert (exists r printed,
    (forall w', fs w' = fs w ->
       ret files w' = (r, mkWorld (fs w') (console w' ++ printed) (answers w'))) /\
    attempted printed = [] /\
    (Forall (fun p => isfile (fs w) p = true) files ->
     exists s, r = Ok s /\ Permutation s files)) as Hret.
  { exists (Ok files), []. split; [|split].
    - intros w' _. unfold ret. now rewrite announce_nothing.
    - reflexivity.
    - intros _. now exists files. }
  unfold _sort_pdfs. destruct sort as [option|]; [|exact Hret].
  destruct (PyStr.truthy option); [|exact Hret].
  set (reverse_order := PyStr.startswith option "^").
  set (opt := if reverse_order then PyStr.tail option else option).
  set (key := if opt =? "name" then Some LowerName
              else if opt =? "date" then Some Mtime
              else if opt =? "size" then Some Size else None).
  destruct key as [k|]; [|exact Hret].
  destruct (sort_by_run T k reverse_order files w) as (r & Hr & Hs).
  exists r, [style (SortingBy opt reverse_order) Yellow]. split; [|split].
  - intros w' E. unfold bind, echo.
    rewrite (Hr (mkWorld (fs w') (console w' ++ [style (SortingBy opt reverse_order) Yellow])
                         (answers w')) E).
    reflexivity.
  - reflexivity.
  - exact Hs.
Qed.

Lemma sort_guard (T : StrOps) (pdfs : list string) (sort : option string) :
  (if truthy_opt sort then _sort_pdfs T pdfs sort else ret pdfs) = _sort_pdfs T pdfs sort.
Proof. destruct sort as [[|c s]|]; reflexivity. Qed.

Lemma check_pdfs_found (fs : FS) (pdfs : list string) :
  Forall (fun p => isfile fs p = true) (_check_pdfs fs pdfs).
Proof.
  rewrite check_pdfs_filter. apply Forall_forall. intros p Hp.
  apply filter_In in Hp. destruct Hp as [_ Hp].
  now apply andb_true_iff in Hp.
Qed.

Lemma attempted_app (xs ys : list line) :
  attempted (xs ++ ys) = attempted xs ++ attempted ys.
Proof. apply flat_map_app. Qed.

Lemma attempted_append_lines (L : PdfLib) (files : list string) :
  attempted (map (append_line L) files) = files.
Proof.
  induction files as [|f files IH]; [reflexivity|].
  cbn [map]. unfold attempted in *. cbn [flat_map]. rewrite IH.
  unfold append_line.
  destruct (merger_append L f) as [ps|e]; [reflexivity|now destruct e].
Qed.

Section MergeCommand.

Variable T : StrOps.
Variable L : PdfLib.

(** What the last two statements of [merge] print: a line per file of the
    list, in order, and then at most a summary. *)
Lemma merge_report_console (pdfs : list string) (output : string) (w : World) :
  exists tail,
    console (snd (('(output_file, merged_count) <- _merge_pdfs L pdfs output ;;
                   if (0 <? merged_count)%nat
                   then echo (style (MergedTo merged_count output_file) Blue)
                   else echo (style NoValidPdfs Red)) w))
    = console w ++ map (append_line L) pdfs ++ tail /\
    attempted tail = [].
Proof.
  unfold bind. rewrite merge_pdfs_run. cbv zeta.
  destruct (nonempty (appended_pages L pdfs));
    [destruct (writable (fs w) output);
       [destruct (serialized_size L (appended_pages L pdfs))|]|];
    try destruct (0 <? appended_count L pdfs)%nat; cbn;
    first [ exists []; rewrite app_nil_r; split; reflexivity
          | eexists; split; [rewrite <- app_assoc; reflexivity | reflexivity] ].
Qed.

(** C4 (amended).  The numbered preview is printed before the sort is
    applied: whatever the sort option, it lists the validated candidates
    in discovery order.  The sort (which cannot fail on validated paths)
    then gives the order of the merge: when the merge goes ahead (with
    [--yes], or after the user agrees), the files the merge loop goes
    through, in order, are the sorted list. *)
Theorem merge_previews_discovery_order
    (yes : bool) (files : list string) (dir pattern : string)
    (from_list sort : option string) (output : string) (w : World)
    (cands : list string) :
  merge_candidates T files dir pattern from_list w = (Ok cands, w) ->
  let found := _check_pdfs (fs w) cands in
  exists order rest,
    fst (_sort_pdfs T found sort w) = Ok order /\
    Permutation order found /\
    console (snd (merge T L yes files dir pattern from_list sort output w))
    = console w ++ preview found ++ rest /\
    ((yes = true \/ exists more, answers w = true :: more) ->
     attempted rest = order).
Proof.
  intros Hc found.
  destruct (sort_pdfs_run T found sort w) as (r & printed & Hrun & Hatt & Hfound).
  destruct (Hfound (check_pdfs_found _ _)) as (order & -> & Hperm).
  exists order. rewrite (Hrun w eq_refl). cbn [fst].
  set (w2 := mkWorld (fs w) ((console w ++ preview found) ++ printed) (answers w)).
  remember (merge T L yes files dir pattern from_list sort output w) as run eqn:Erun.
  unfold merge in Erun. unfold bind at 1 in Erun. rewrite Hc in Erun.
  unfold bind at 1, with_fs in Erun. fold found in Erun.
  unfold bind at 1 in Erun. rewrite display_pdfs_run, sort_guard in Erun.
  unfold bind at 1 in Erun.
  rewrite (Hrun (mkWorld (fs w) (console w ++ preview found) (answers w)) eq_refl)
    in Erun.
  cbn [fs console answers] in Erun. fold w2 in Erun.
  destruct order as [|p order]; cbn [nonempty negb] in Erun.
  - exists (printed ++ [style NoPdfsFound Red]). subst run. repeat split; auto.
    + unfold echo, w2. cbn. now rewrite <- !app_assoc.
    + intros _. now rewrite attempted_app, Hatt.
  - destruct yes; cbn [negb] in Erun.
    + destruct (merge_report_console (p :: order) output w2) as (tail & Ht & Ha).
      exists (printed ++ map (append_line L) (p :: order) ++ tail).
      subst run. repeat split; auto.
      * unfold bind at 1, ret at 1. rewrite Ht. unfold w2. cbn [console].
        now rewrite <- !app_assoc.
      * intros _.
        now rewrite !attempted_app, Hatt, Ha, attempted_append_lines, app_nil_r.
    + unfold bind at 1, confirm_or_abort in Erun. cbn [answers w2] in Erun.
      destruct (answers w) as [|[|] more].
      * exists (printed ++ [style ConfirmMerge Yellow]). subst run.
        repeat split; auto.
        -- cbn. now rewrite <- !app_assoc.
        -- intros [?|[? ?]]; discriminate.
      * set (w3 := mkWorld (fs w2) (console w2 ++ [style ConfirmMerge Yellow]) more) in Erun.
        destruct (merge_report_console (p :: order) output w3) as (tail & Ht & Ha).
        exists (printed ++ style ConfirmMerge Yellow ::
                  map (append_line L) (p :: order) ++ tail).
        subst run. repeat split; auto.
        -- rewrite Ht. unfold w3, w2. cbn [console fs].
           now rewrite <- !app_assoc.
        -- intros _.
           change (style ConfirmMerge Yellow :: ?l) with ([style ConfirmMerge Yellow] ++ l).
           now rewrite !attempted_app, Hatt, Ha, attempted_append_lines, app_nil_r.
      * exists (printed ++ [style ConfirmMerge Yellow]). subst run.
        repeat split; auto.
        -- cbn. now rewrite <- !app_assoc.
        -- intros [?|[? ?]]; discriminate.
Qed.

End MergeCommand.

(** C4 (amended) on the files [b.pdf, a.pdf] sorted by name. *)
Lemma merge_previews_discovery_order_witness :
  let found := _check_pdfs (fs demo_world) ["./b.pdf"; "./a.pdf"] in
  exists order rest,
    fst (_sort_pdfs ascii_ops found (Some "name") demo_world) = Ok order /\
    Permutation order found /\
    console (snd (merge ascii_ops demo_lib true ["b.pdf"; "a.pdf"] "." "*.pdf" None
                    (Some "name") "merged.pdf" demo_world))
    = console demo_world ++ preview found ++ rest /\
    ((true = true \/ exists more, answers demo_world = true :: more) ->
     attempted rest = order).
Proof.
  exact (@merge_previews_discovery_order ascii_ops demo_lib true ["b.pdf"; "a.pdf"] "."
           "*.pdf" None (Some "name") "merged.pdf" demo_world
           ["./b.pdf"; "./a.pdf"] eq_refl).
Defined.

(** C4 as stated fails: with [--sort name] on [b.pdf a.pdf] the preview
    numbers [b.pdf] first, and the files are then merged [a.pdf] first. *)
Lemma merge_preview_not_sorted :
  let run := cli ascii_ops demo_lib
               (Merge true ["b.pdf"; "a.pdf"] "." "*.pdf" None (Some "name")
                  "merged.pdf") demo_world in
  fst run = 0%Z /\
  console (snd run) =
    [style (FoundPdfs 2) Blue;
     plain (Item 1 "./b.pdf");
     plain (Item 2 "./a.pdf");
     style (SortingBy "name" false) Yellow;
     style (Appended "./a.pdf") Green;
     style (Appended "./b.pdf") Green;
     style (MergedTo 2 "merged.pdf") Blue].
Proof. split; reflexivity. Qed.

Lemma pdf_lines_filter (T : StrOps) (lines : list string) :
  pdf_lines T lines =
  filter (fun p => PyStr.endswith p ".pdf") (map (strip T) lines).
Proof.
  induction lines as [|l lines IH]; simpl; [reflexivity|].
  rewrite IH. now destruct (PyStr.endswith (strip T l) ".pdf").
Qed.

(** C3 (amended).  The candidates come from the first input mode that is
    supplied, whether or not it yields a path: from the file arguments when
    there is one; else from the list file when one is named, as the
    stripped lines that end with [.pdf], and this also when there is no
    such line (the glob pattern is not consulted); else from the glob
    pattern under the directory. *)
Theorem merge_candidates_precedence (T : StrOps)
    (files : list string) (dir pattern : string) (from_list : option string)
    (w : World) :
  (files <> [] ->
   merge_candidates T files dir pattern from_list w =
   (Ok (map (os_path_join dir) files), w)) /\
  (files = [] ->
   forall list_file lines,
     from_list = Some list_file -> list_file <> EmptyString ->
     readlines list_file w = (Ok lines, w) ->
     merge_candidates T files dir pattern from_list w =
     (Ok (filter (fun p => PyStr.endswith p ".pdf") (map (strip T) lines)), w)) /\
  (files = [] ->
   from_list = None \/ from_list = Some EmptyString ->
   merge_candidates T files dir pattern from_list w =
   (Ok (glob_expand (fs w) (os_path_join dir pattern)), w)).
Proof.
  unfold merge_candidates. split; [|split].
  - destruct files; [congruence|reflexivity].
  - intros -> list_file lines -> Hne Hr. cbn [nonempty].
    destruct list_file; [congruence|]. cbn [PyStr.truthy].
    unfold bind. rewrite Hr. unfold ret. now rewrite pdf_lines_filter.
  - intros -> [-> | ->]; reflexivity.
Qed.

(** C3 (amended) on a list file that names two PDFs. *)
Lemma merge_candidates_precedence_witness :
  merge_candidates ascii_ops [] "." "*.pdf" (Some "pdfs.txt") demo_world =
  (Ok ["a.pdf"; "b.pdf"], demo_world).
Proof.
  destruct (merge_candidates_precedence ascii_ops [] "." "*.pdf"
              (Some "pdfs.txt") demo_world)
    as (_ & H & _).
  exact (H eq_refl "pdfs.txt" _ eq_refl ltac:(discriminate) eq_refl).
Defined.

(** C3 as stated fails: a list file that names no PDF is supplied, the
    glob pattern matches two files, and the candidate set is empty all
    the same; the command ends with "No PDFs found". *)
Lemma merge_list_file_without_pdfs :
  let run := cli ascii_ops demo_lib
               (Merge true [] "." "*.pdf" (Some "list.txt") None "merged.pdf")
               demo_world in
  merge_candidates ascii_ops [] "." "*.pdf" (Some "list.txt") demo_world =
  (Ok [], demo_world) /\
  glob_expand demo_fs (os_path_join "." "*.pdf") = ["./a.pdf"; "./b.pdf"] /\
  fst run = 0%Z /\
  console (snd run) = [style (FoundPdfs 0) Blue; style NoPdfsFound Red].
Proof. repeat split. Qed.

(* ===================================================================== *)
(** ** The compressor *)
(* ===================================================================== *)

Section CompressFacts.

Variable T : StrOps.
Variable L : PdfLib.

Lemma compress_loop_fails (pages : list (result page)) (e : exn) :
  page_failure L pages e ->
  forall writer w, compress_loop L pages writer w = (Raise e, w).
Proof.
  induction 1 as [e rest|p e rest Hp|p p' rest e Hp _ IH]; intros writer w;
    cbn [compress_loop]; unfold bind, lift.
  - reflexivity.
  - now rewrite Hp.
  - rewrite Hp. apply IH.
Qed.

Lemma compress_loop_ok (pages : list (result page)) (out : list page) :
  pages_compress L pages out ->
  forall writer w, compress_loop L pages writer w = (Ok (writer ++ out), w).
Proof.
  induction 1 as [|p p' rest out Hp _ IH]; intros writer w; cbn [compress_loop].
  - unfold ret. now rewrite app_nil_r.
  - unfold bind, lift. rewrite Hp, IH. now rewrite <- app_assoc.
Qed.

Lemma compress_pdf_fails (file output : string) (w : World) (e : exn) :
  compression_failure L (fs w) file output e ->
  exists w', _compress_pdf L file output w = (Raise e, w') /\
             console w' = console w.
Proof.
  intros H. unfold _compress_pdf.
  destruct H as [e Hr|pages e Hr Hp|pages out Hr Hp Hw|pages out e Hr Hp Hw Hs];
    unfold bind at 1, lift at 1; rewrite Hr.
  - now exists w.
  - unfold bind at 1. rewrite (compress_loop_fails Hp). now exists w.
  - unfold bind at 1. rewrite (compress_loop_ok Hp). cbn [app].
    unfold bind at 1, write_document, bind at 1, open_wb. rewrite Hw.
    now exists w.
  - unfold bind at 1. rewrite (compress_loop_ok Hp). cbn [app].
    unfold bind at 1, write_document, bind at 1, open_wb. rewrite Hw.
    unfold bind at 1, lift. rewrite Hs. now eexists.
Qed.

(** C8.  The compressor recovers from nothing.  For an input path that
    the command accepts (it exists and is no directory): when opening the
    input, reading a page, compressing its content streams, opening the
    output or writing it fails with an exception, that exception leaves
    [_compress_pdf]; it then leaves [compress] too, which has printed
    nothing; and the command ends with an exit status that is not 0. *)
Theorem compress_failure_is_fatal (file output : string) (w : World) (e : exn) :
  accepted (fs w) file = true ->
  compression_failure L (fs w) file output e ->
  fst (_compress_pdf L file output w) = Raise e /\
  fst (compress L file output w) = Raise e /\
  console (snd (compress L file output w)) = console w /\
  fst (cli T L (Compress file output) w) <> 0%Z /\
  console (snd (cli T L (Compress file output) w)) = console w.
Proof.
  intros Hfile Hfail.
  destruct (compress_pdf_fails w Hfail) as (w' & Hrun & Hcon).
  assert (compress L file output w = (Raise e, w')) as Hc.
  { unfold compress, bind at 1, getsize. unfold accepted in Hfile.
    destruct (lookup (fs w) file); [|discriminate].
    unfold bind at 1. now rewrite Hrun. }
  rewrite Hrun, Hc. cbn [fst snd]. repeat split; auto.
  - unfold cli, invoke, bind, click_path. unfold accepted in Hfile.
    destruct (lookup (fs w) file) as [n|]; [|discriminate].
    destruct (is_dir n); [discriminate|]. cbn [andb]. rewrite Hc.
    now destruct e.
  - unfold cli, invoke, bind, click_path. unfold accepted in Hfile.
    destruct (lookup (fs w) file) as [n|]; [|discriminate].
    destruct (is_dir n); [discriminate|]. cbn [andb]. now rewrite Hc.
Qed.

Lemma compress_pdf_returns_output
    (file output out : string) (size : Z) (w w' : World) :
  _compress_pdf L file output w = (Ok (out, size), w') -> out = output.
Proof.
  unfold _compress_pdf, bind, lift, ret.
  destruct (reader_pages L file) as [pages|]; [|discriminate].
  destruct (compress_loop L pages [] w) as [[writer|] w1]; [|discriminate].
  destruct (write_document L output writer w1) as [[|] w2]; [|discriminate].
  destruct (getsize output w2) as [[|] w3]; [|discriminate].
  congruence.
Qed.

(** C1 (amended).  After a successful compression of an input whose size
    is not zero, [compress] prints three lines: the two file names, the
    size before, and the size after with the percentage
    [(size_before - size_after) / size_before * 100], the rational number
    whose product with [size_before] is [100 * (size_before - size_after)];
    no division fault occurs. *)
Theorem compress_reports_reduction
    (file output out : string) (size_before size_after : Z) (w w' : World) :
  getsize file w = (Ok size_before, w) ->
  size_before <> 0%Z ->
  _compress_pdf L file output w = (Ok (out, size_after), w') ->
  exists percent : Q,
    compress L file output w =
    (Ok tt,
     mkWorld (fs w')
       (console w' ++
        [style (CompressedTo file output) Blue;
         style (SizeBefore size_before) Blue;
         style (SizeAfter size_after percent) Blue])
       (answers w')) /\
    percent = (inject_Z (size_before - size_after) / inject_Z size_before * 100)%Q /\
    (percent * inject_Z size_before == inject_Z (100 * (size_before - size_after)))%Q.
Proof.
  intros Hsize Hnz Hrun.
  pose proof (compress_pdf_returns_output _ _ _ Hrun) as ->.
  eexists. split; [|split; [reflexivity|]].
  - unfold compress, bind at 1. rewrite Hsize. unfold bind at 1. rewrite Hrun.
    unfold bind, echo, true_div. cbn [fs console answers].
    apply Z.eqb_neq in Hnz. rewrite Hnz. unfold ret.
    cbn [fs console answers]. now rewrite <- !app_assoc.
  - rewrite inject_Z_mult.
    assert (~ inject_Z size_before == 0)%Q as Hq.
    { intros H. apply Hnz. unfold Qeq in H. simpl in H. lia. }
    field. exact Hq.
Qed.

(** Without the condition on the size: when the size read is 0 and the
    compression succeeds, the first two lines are printed and the division
    raises. *)
Lemma compress_zero_size
    (file output out : string) (size_after : Z) (w w' : World) :
  getsize file w = (Ok 0%Z, w) ->
  _compress_pdf L file output w = (Ok (out, size_after), w') ->
  compress L file output w =
  (Raise ZeroDivisionError,
   mkWorld (fs w')
     (console w' ++
      [style (CompressedTo file out) Blue; style (SizeBefore 0) Blue])
     (answers w')).
Proof.
  intros Hsize Hrun.
  unfold compress, bind at 1. rewrite Hsize. unfold bind at 1. rewrite Hrun.
  unfold bind, echo, true_div, raise. cbn. now rewrite <- !app_assoc.
Qed.

End CompressFacts.

(** C8 on a document whose second page cannot be read. *)
Lemma compress_failure_is_fatal_witness :
  fst (_compress_pdf torn_lib "a.pdf" "out.pdf" demo_world) = Raise (PdfError "page 2") /\
  fst (compress torn_lib "a.pdf" "out.pdf" demo_world) = Raise (PdfError "page 2") /\
  console (snd (compress torn_lib "a.pdf" "out.pdf" demo_world)) = console demo_world /\
  fst (cli ascii_ops torn_lib (Compress "a.pdf" "out.pdf") demo_world) <> 0%Z /\
  console (snd (cli ascii_ops torn_lib (Compress "a.pdf" "out.pdf") demo_world))
  = console demo_world.
Proof.
  apply compress_failure_is_fatal; [reflexivity|].
  eapply page_fails; [reflexivity|].
  eapply fails_later; [reflexivity|]. apply read_fails.
Defined.

(** C1 (amended) on a file of 200 bytes compressed to 164. *)
Lemma compress_reports_reduction_witness :
  exists percent : Q,
    compress demo_lib "a.pdf" "out.pdf" demo_world =
    (Ok tt,
     mkWorld (fs (snd (_compress_pdf demo_lib "a.pdf" "out.pdf" demo_world)))
       [style (CompressedTo "a.pdf" "out.pdf") Blue;
        style (SizeBefore 200) Blue;
        style (SizeAfter 164 percent) Blue]
       [true]) /\
    percent = (inject_Z (200 - 164) / inject_Z 200 * 100)%Q /\
    (percent * inject_Z 200 == inject_Z (100 * (200 - 164)))%Q.
Proof.
  apply (@compress_reports_reduction demo_lib "a.pdf" "out.pdf" "out.pdf"
           200 164 demo_world
           (snd (_compress_pdf demo_lib "a.pdf" "out.pdf" demo_world))).
  - reflexivity.
  - discriminate.
  - reflexivity.
Defined.

(** C1 as stated fails: the input exists (a named pipe fed with a
    document), its size is read as 0, the compression succeeds, and the
    percentage raises a division fault after two lines of the report. *)
Lemma compress_divides_by_zero :
  let run := cli ascii_ops demo_lib (Compress "pipe.pdf" "out.pdf") demo_world in
  accepted demo_fs "pipe.pdf" = true /\
  fst (getsize "pipe.pdf" demo_world) = Ok 0%Z /\
  fst (_compress_pdf demo_lib "pipe.pdf" "out.pdf" demo_world) = Ok ("out.pdf", 164%Z) /\
  fst (compress demo_lib "pipe.pdf" "out.pdf" demo_world) = Raise ZeroDivisionError /\
  fst run = 1%Z /\
  console (snd run) =
    [style (CompressedTo "pipe.pdf" "out.pdf") Blue; style (SizeBefore 0) Blue].
Proof. repeat split. Qed.

(** C7 on three paths with distinct names up to case. *)
Lemma sort_pdfs_by_name_witness :
  fst (_sort_pdfs ascii_ops ["b.pdf"; "C.pdf"; "a.pdf"] (Some "name") demo_world)
    = Ok ["a.pdf"; "b.pdf"; "C.pdf"] /\
  fst (_sort_pdfs ascii_ops ["b.pdf"; "C.pdf"; "a.pdf"] (Some "^name") demo_world)
    = Ok (rev ["a.pdf"; "b.pdf"; "C.pdf"]).
Proof.
  destruct (sort_pdfs_by_name ascii_ops ["b.pdf"; "C.pdf"; "a.pdf"] demo_world)
    as (asc & desc & Ha & Hd & _ & _ & _ & _ & Hrev & _).
  assert (asc = ["a.pdf"; "b.pdf"; "C.pdf"]) as Easc.
  { assert (Ok asc = Ok ["a.pdf"; "b.pdf"; "C.pdf"]) as E by (rewrite <- Ha; reflexivity).
    now injection E. }
  split; [reflexivity|].
  rewrite Hd, <- Easc. f_equal. apply Hrev.
  repeat constructor; simpl; intuition discriminate.
Defined.

(** Equal names up to case keep their order, in both directions. *)
Example sort_by_name_is_stable :
  fst (_sort_pdfs ascii_ops ["b.pdf"; "A.pdf"; "a.pdf"; "B.pdf"] (Some "name") demo_world)
    = Ok ["A.pdf"; "a.pdf"; "b.pdf"; "B.pdf"] /\
  fst (_sort_pdfs ascii_ops ["b.pdf"; "A.pdf"; "a.pdf"; "B.pdf"] (Some "^name") demo_world)
    = Ok ["b.pdf"; "B.pdf"; "A.pdf"; "a.pdf"].
Proof. split; reflexivity. Qed.

(** Two paths that [str.lower] makes equal keep their order in both
    directions, whatever the operation does to other strings. *)
Lemma sort_by_name_keeps_ties (T : StrOps) (a b : string) (w : World) :
  lower T a = lower T b ->
  fst (_sort_pdfs T [a; b] (Some "name") w) = Ok [a; b] /\
  fst (_sort_pdfs T [a; b] (Some "^name") w) = Ok [a; b].
Proof.
  intros H. rewrite sort_pdfs_name, sort_pdfs_name_descending.
  unfold sorted_by. cbn. rewrite H, string_ltb_irrefl. now split.
Qed.

(** The sizes of the spec's example: 300, 100 and 200 bytes. *)
Example sort_by_size :
  let w := sample_world
             (sample_fs [("x.pdf", regular 300 1 Bytes);
                         ("y.pdf", regular 100 2 Bytes);
                         ("z.pdf", regular 200 3 Bytes)] []) [] in
  fst (_sort_pdfs ascii_ops ["x.pdf"; "y.pdf"; "z.pdf"] (Some "size") w)
    = Ok ["y.pdf"; "z.pdf"; "x.pdf"] /\
  fst (_sort_pdfs ascii_ops ["x.pdf"; "y.pdf"; "z.pdf"] (Some "^size") w)
    = Ok ["x.pdf"; "z.pdf"; "y.pdf"].
Proof. split; reflexivity. Qed.

(** The suffix test is exact: an upper-case suffix, a missing file, a
    directory, a pipe and a text file are dropped. *)
Example check_pdfs_example :
  _check_pdfs demo_fs
    ["b.pdf"; "A.PDF"; "missing.pdf"; "outdir"; "pipe.pdf"; "list.txt"; "a.pdf"]
  = ["b.pdf"; "a.pdf"].
Proof. reflexivity. Qed.

(* ===================================================================== *)
(** ** More on the sorter *)
(* ===================================================================== *)

Lemma strongly_sorted_app {A} (R : A -> A -> Prop) (l1 l2 : list A) :
  StronglySorted R l1 -> StronglySorted R l2 ->
  (forall x y, In x l1 -> In y l2 -> R x y) ->
  StronglySorted R (l1 ++ l2).
Proof.
  induction l1 as [|a l1 IH]; simpl; intros H1 H2 H; [exact H2|].
  apply StronglySorted_inv in H1. destruct H1 as [H1 Ha].
  constructor.
  - apply IH; auto.
  - apply Forall_app. split; [exact Ha|].
    apply Forall_forall. intros y Hy. apply H; auto.
Qed.

Lemma strongly_sorted_rev {A} (R : A -> A -> Prop) (l : list A) :
  StronglySorted R l -> StronglySorted (fun a b => R b a) (rev l).
Proof.
  induction 1 as [|a l _ IH Ha]; simpl; [constructor|].
  apply strongly_sorted_app; [exact IH|repeat constructor|].
  intros x y Hx [<-|[]]. rewrite Forall_forall in Ha.
  apply Ha. now apply in_rev.
Qed.

(** Sorting a sorted list changes nothing. *)
Lemma stable_sort_of_sorted {A K} (lt : K -> K -> bool) (l : list (K * A)) :
  StronglySorted (key_le lt) l -> stable_sort lt l = l.
Proof.
  induction 1 as [|a l _ IH Ha]; [reflexivity|].
  cbn [stable_sort]. rewrite IH. destruct l as [|b l]; [reflexivity|].
  cbn [insert]. apply Forall_inv in Ha. unfold key_le in Ha. now rewrite Ha.
Qed.

Section SortTwice.

Variables (A K : Type).
Variable lt : K -> K -> bool.
Variable key : A -> K.

Hypothesis lt_irrefl : forall x, lt x x = false.
Hypothesis lt_trans : forall x y z, lt x y = true -> lt y z = true -> lt x z = true.
Hypothesis lt_connex : forall x y, lt x y = false -> lt y x = false -> x = y.

Lemma sort_decorated_descending (l : list (K * A)) :
  StronglySorted (fun a b => key_le lt b a) (sort_decorated lt true l).
Proof.
  unfold sort_decorated. apply strongly_sorted_rev.
  now apply stable_sort_sorted.
Qed.

Lemma sort_decorated_twice (reverse : bool) (l : list (K * A)) :
  sort_decorated lt reverse (sort_decorated lt reverse l) = sort_decorated lt reverse l.
Proof.
  destruct reverse.
  - pose proof (sort_decorated_descending l) as H.
    apply strongly_sorted_rev in H.
    unfold sort_decorated at 1. rewrite (stable_sort_of_sorted (lt := lt)).
    + apply rev_involutive.
    + eapply strongly_sorted_impl; [|exact H]. auto.
  - unfold sort_decorated. apply stable_sort_of_sorted.
    now apply stable_sort_sorted.
Qed.

Lemma sorted_by_twice (reverse : bool) (l : list A) :
  sorted_by lt key reverse (sorted_by lt key reverse l) = sorted_by lt key reverse l.
Proof.
  unfold sorted_by at 1. rewrite combine_keys.
  rewrite <- (sorted_by_decorated lt key reverse l), sort_decorated_twice.
  rewrite sorted_by_decorated. apply map_snd_dec.
Qed.

Lemma sorted_by_descending (l : list A) :
  StronglySorted (fun a b => lt (key a) (key b) = false) (sorted_by lt key true l).
Proof.
  apply strongly_sorted_map with (R := fun a b => key_le lt b a).
  rewrite <- sorted_by_decorated. apply sort_decorated_descending.
Qed.

End SortTwice.

Lemma z_ltb_trans (x y z : Z) :
  (x <? y)%Z = true -> (y <? z)%Z = true -> (x <? z)%Z = true.
Proof. rewrite !Z.ltb_lt. lia. Qed.

Lemma z_ltb_connex (x y : Z) :
  (x <? y)%Z = false -> (y <? x)%Z = false -> x = y.
Proof. rewrite !Z.ltb_ge. lia. Qed.

Lemma sort_pdfs_unfold (T : StrOps) (files : list string) (option : string) (w : World) :
  _sort_pdfs T files (Some option) w =
  match key_of (key_name option) with
  | Some k =>
      (echo (sorting_line option) ;;
       sort_by T k (PyStr.startswith option "^") files) w
  | None => (Ok files, w)
  end.
Proof.
  unfold _sort_pdfs, key_of, key_name, sorting_line.
  destruct option as [|c option]; [reflexivity|]. cbn [PyStr.truthy].
  cbv zeta.
  destruct (_ =? "name"); [reflexivity|].
  destruct (_ =? "date"); [reflexivity|].
  destruct (_ =? "size"); reflexivity.
Qed.

Lemma echo_then {A} (l : line) (m : M A) (w : World) :
  (echo l ;; m) w = m (announce w l).
Proof. reflexivity. Qed.

Lemma sort_by_world (T : StrOps) (k : sort_key) (reverse : bool)
    (files : list string) (w : World) :
  snd (sort_by T k reverse files w) = w.
Proof.
  destruct (sort_by_run T k reverse files w) as (r & Hr & _).
  now rewrite (Hr w eq_refl).
Qed.

Lemma all_ok_present (field : node -> Z) (fs : FS) (files : list string) :
  Forall (fun p => present fs p = true) files ->
  all_ok (stat_field field fs) files = Ok (map (field_at field fs) files).
Proof.
  induction 1 as [|p files Hp _ IH]; [reflexivity|].
  cbn [all_ok map]. rewrite IH. unfold stat_field, field_at, present in *.
  now destruct (lookup fs p).
Qed.

Lemma all_ok_stat_inv (field : node -> Z) (fs : FS) (files : list string) (keys : list Z) :
  all_ok (stat_field field fs) files = Ok keys ->
  Forall (fun p => present fs p = true) files.
Proof.
  revert keys. induction files as [|p files IH]; intros keys H; [constructor|].
  cbn [all_ok] in H. unfold stat_field at 1 in H.
  destruct (lookup fs p) eqn:E; [|discriminate].
  destruct (all_ok (stat_field field fs) files) eqn:E'; [|discriminate].
  constructor; [unfold present; now rewrite E|]. eapply IH. reflexivity.
Qed.

Lemma all_ok_missing (field : node -> Z) (fs : FS) (pre post : list string) (missing : string) :
  Forall (fun p => present fs p = true) pre ->
  lookup fs missing = None ->
  all_ok (stat_field field fs) (pre ++ missing :: post) = Raise (FileNotFoundError missing).
Proof.
  intros Hpre Hm. induction Hpre as [|p pre Hp _ IH]; cbn [app all_ok].
  - unfold stat_field. now rewrite Hm.
  - rewrite IH. unfold stat_field, present in *. now destruct (lookup fs p).
Qed.

(** Sorting by a field of the nodes, for the two keys that read one. *)
Lemma sort_by_stat (T : StrOps) (k : sort_key) (field : node -> Z) (reverse : bool)
    (files : list string) (w : World) :
  (k = Mtime /\ field = st_mtime) \/ (k = Size /\ field = st_size) ->
  sort_by T k reverse files w =
  (match all_ok (stat_field field (fs w)) files with
   | Ok keys => Ok (map snd (sort_decorated Z.ltb reverse (combine keys files)))
   | Raise e => Raise e
   end, w).
Proof.
  intros [[-> ->]|[-> ->]]; cbn [sort_by].
  - apply list_sort_reads. apply getmtime_reads.
  - apply list_sort_reads. apply getsize_reads.
Qed.

Lemma sort_by_stat_present (T : StrOps) (k : sort_key) (field : node -> Z) (reverse : bool)
    (files : list string) (w : World) :
  (k = Mtime /\ field = st_mtime) \/ (k = Size /\ field = st_size) ->
  Forall (fun p => present (fs w) p = true) files ->
  sort_by T k reverse files w =
  (Ok (sorted_by Z.ltb (field_at field (fs w)) reverse files), w).
Proof.
  intros Hk Hp. rewrite (sort_by_stat T reverse files w Hk).
  now rewrite (all_ok_present field _ Hp).
Qed.

Lemma caret_prefix (option : string) :
  PyStr.startswith option "^" = true -> option = String "^"%char (PyStr.tail option).
Proof.
  unfold PyStr.startswith.
  destruct option as [|c option]; cbn [String.prefix PyStr.tail]; [discriminate|].
  destruct (ascii_dec "^"%char c) as [<-|]; intros H; [reflexivity|discriminate].
Qed.

Lemma key_of_some (name : string) (k : sort_key) :
  key_of name = Some k -> name = "name" \/ name = "date" \/ name = "size".
Proof.
  unfold key_of.
  destruct (String.eqb_spec name "name"); [auto|].
  destruct (String.eqb_spec name "date"); [auto|].
  destruct (String.eqb_spec name "size"); [auto|discriminate].
Qed.

Lemma recognised_options (option : string) (k : sort_key) :
  key_of (key_name option) = Some k -> In option sort_choices.
Proof.
  intros H. apply key_of_some in H. unfold key_name in H.
  destruct (PyStr.startswith option "^") eqn:E.
  - apply caret_prefix in E. rewrite E.
    destruct H as [-> | [-> | ->]]; simpl; auto 10.
  - destruct H as [-> | [-> | ->]]; simpl; auto 10.
Qed.

Lemma sort_pdfs_stat (T : StrOps) (files : list string) (option : string) (k : sort_key)
    (field : node -> Z) (w : World) :
  key_of (key_name option) = Some k ->
  (k = Mtime /\ field = st_mtime) \/ (k = Size /\ field = st_size) ->
  _sort_pdfs T files (Some option) w =
  (match all_ok (stat_field field (fs w)) files with
   | Ok keys =>
       Ok (map snd (sort_decorated Z.ltb (PyStr.startswith option "^")
                      (combine keys files)))
   | Raise e => Raise e
   end, announce w (sorting_line option)).
Proof.
  intros Hkey Hk. rewrite sort_pdfs_unfold, Hkey, echo_then.
  now rewrite (sort_by_stat T _ _ _ Hk).
Qed.

(** X1.  Sorting paths that exist by [size] or by [date] gives them in
    the order of their sizes (modification times), smallest first, and
    with a leading [^] largest first; both keep the paths of one size
    (time) in the order they had; and for pairwise distinct sizes (times)
    the descending list is the reverse of the ascending one. *)
Theorem sort_pdfs_by_size_or_date (T : StrOps)
    (files : list string) (option : string) (field : node -> Z) (w : World) :
  (option = "date" /\ field = st_mtime) \/ (option = "size" /\ field = st_size) ->
  Forall (fun p => present (fs w) p = true) files ->
  let key := field_at field (fs w) in
  exists ascending descending,
    fst (_sort_pdfs T files (Some option) w) = Ok ascending /\
    fst (_sort_pdfs T files (Some ("^" ++ option)%string) w) = Ok descending /\
    Permutation ascending files /\
    Permutation descending files /\
    StronglySorted (fun a b => (key a <= key b)%Z) ascending /\
    StronglySorted (fun a b => (key b <= key a)%Z) descending /\
    (forall k, filter (fun f => (key f =? k)%Z) ascending =
               filter (fun f => (key f =? k)%Z) files) /\
    (forall k, filter (fun f => (key f =? k)%Z) descending =
               filter (fun f => (key f =? k)%Z) files) /\
    (NoDup (map key files) -> descending = rev ascending).
Proof.
  intros Hk Hp key.
  exists (sorted_by Z.ltb key false files), (sorted_by Z.ltb key true files).
  assert (forall reverse k,
    filter (fun f => (key f =? k)%Z) (sorted_by Z.ltb key reverse files) =
    filter (fun f => (key f =? k)%Z) files) as Hstable.
  { intros reverse k.
    apply (sorted_by_stable Z.ltb key reverse (fun j => (j =? k)%Z)).
    intros i j Hi Hj. apply Z.eqb_eq in Hi, Hj. subst. apply Z.ltb_irrefl. }
  assert (fst (_sort_pdfs T files (Some option) w) = Ok (sorted_by Z.ltb key false files)
          /\ fst (_sort_pdfs T files (Some ("^" ++ option)%string) w)
             = Ok (sorted_by Z.ltb key true files)) as [Ha Hd].
  { destruct Hk as [[-> ->]|[-> ->]].
    - change ("^" ++ "date")%string with "^date".
      rewrite (@sort_pdfs_stat T files "date" Mtime st_mtime w eq_refl) by auto.
      rewrite (@sort_pdfs_stat T files "^date" Mtime st_mtime w eq_refl) by auto.
      now rewrite (all_ok_present st_mtime _ Hp).
    - change ("^" ++ "size")%string with "^size".
      rewrite (@sort_pdfs_stat T files "size" Size st_size w eq_refl) by auto.
      rewrite (@sort_pdfs_stat T files "^size" Size st_size w eq_refl) by auto.
      now rewrite (all_ok_present st_size _ Hp). }
  repeat split; auto using sorted_by_perm.
  - eapply strongly_sorted_impl.
    2: { apply sorted_by_ascending;
           [exact Z.ltb_irrefl | exact z_ltb_trans | exact z_ltb_connex]. }
    intros a b H. now apply Z.ltb_ge.
  - eapply strongly_sorted_impl.
    2: { apply sorted_by_descending;
           [exact Z.ltb_irrefl | exact z_ltb_trans | exact z_ltb_connex]. }
    intros a b H. now apply Z.ltb_ge.
  - apply sorted_by_reverse;
      [exact Z.ltb_irrefl | exact z_ltb_trans | exact z_ltb_connex].
Qed.

(** X1 on files of 300, 100 and 200 bytes. *)
Lemma sort_pdfs_by_size_or_date_witness :
  let w := sample_world
             (sample_fs [("x.pdf", regular 300 1 Bytes);
                         ("y.pdf", regular 100 2 Bytes);
                         ("z.pdf", regular 200 3 Bytes)] []) [] in
  let key := field_at st_size (fs w) in
  exists ascending descending,
    fst (_sort_pdfs ascii_ops ["x.pdf"; "y.pdf"; "z.pdf"] (Some "size") w) = Ok ascending /\
    fst (_sort_pdfs ascii_ops ["x.pdf"; "y.pdf"; "z.pdf"] (Some "^size") w) = Ok descending /\
    Permutation ascending ["x.pdf"; "y.pdf"; "z.pdf"] /\
    Permutation descending ["x.pdf"; "y.pdf"; "z.pdf"] /\
    StronglySorted (fun a b => (key a <= key b)%Z) ascending /\
    StronglySorted (fun a b => (key b <= key a)%Z) descending /\
    (forall k, filter (fun f => (key f =? k)%Z) ascending =
               filter (fun f => (key f =? k)%Z) ["x.pdf"; "y.pdf"; "z.pdf"]) /\
    (forall k, filter (fun f => (key f =? k)%Z) descending =
               filter (fun f => (key f =? k)%Z) ["x.pdf"; "y.pdf"; "z.pdf"]) /\
    (NoDup (map key ["x.pdf"; "y.pdf"; "z.pdf"]) -> descending = rev ascending).
Proof.
  apply (@sort_pdfs_by_size_or_date ascii_ops ["x.pdf"; "y.pdf"; "z.pdf"] "size" st_size).
  - right. split; reflexivity.
  - repeat constructor.
Defined.

(** X2.  Sorting by [size] or [date], in either direction, a list that
    holds a path which does not exist raises [FileNotFoundError] for the
    first such path; the line that announces the sort has been printed by
    then, and the file system is as it was. *)
Theorem sort_pdfs_missing_file (T : StrOps)
    (pre post : list string) (missing option : string) (w : World) :
  In option ["size"; "date"; "^size"; "^date"] ->
  Forall (fun p => present (fs w) p = true) pre ->
  lookup (fs w) missing = None ->
  _sort_pdfs T (pre ++ missing :: post) (Some option) w =
  (Raise (FileNotFoundError missing), announce w (sorting_line option)).
Proof.
  intros Hin Hpre Hm.
  assert (exists k field,
    key_of (key_name option) = Some k /\
    ((k = Mtime /\ field = st_mtime) \/ (k = Size /\ field = st_size)))
    as (k & field & Hkey & Hk).
  { destruct Hin as [<-|[<-|[<-|[<-|[]]]]].
    - exists Size, st_size. auto.
    - exists Mtime, st_mtime. auto.
    - exists Size, st_size. auto.
    - exists Mtime, st_mtime. auto. }
  rewrite (sort_pdfs_stat T _ _ w Hkey Hk).
  now rewrite (all_ok_missing field _ post _ Hpre Hm).
Qed.

(** X2 on a list whose second path is gone. *)
Lemma sort_pdfs_missing_file_witness :
  _sort_pdfs ascii_ops (["a.pdf"] ++ "gone.pdf" :: ["b.pdf"]) (Some "^date") demo_world =
  (Raise (FileNotFoundError "gone.pdf"),
   announce demo_world (sorting_line "^date")).
Proof.
  apply sort_pdfs_missing_file.
  - simpl. auto.
  - repeat constructor.
  - reflexivity.
Defined.

(** X3.  [_sort_pdfs] knows exactly the six options that the command
    declares.  For each of them it prints the line that announces the sort
    and nothing else; for any other string (another case, a second [^],
    the empty string) it returns the list as it is and prints nothing. *)
Theorem sort_pdfs_options (T : StrOps) (files : list string) (option : string) (w : World) :
  (In option sort_choices ->
   console (snd (_sort_pdfs T files (Some option) w))
   = console w ++ [sorting_line option]) /\
  (~ In option sort_choices ->
   _sort_pdfs T files (Some option) w = (Ok files, w)).
Proof.
  split.
  - intros Hin.
    assert (exists k, key_of (key_name option) = Some k) as [k Hk].
    { destruct Hin as [<-|[<-|[<-|[<-|[<-|[<-|[]]]]]]]; now eexists. }
    rewrite sort_pdfs_unfold, Hk, echo_then, sort_by_world. reflexivity.
  - intros Hnot. rewrite sort_pdfs_unfold.
    destruct (key_of (key_name option)) as [k|] eqn:Hk; [|reflexivity].
    exfalso. apply Hnot. now apply recognised_options with k.
Qed.

(** X3 on an option in upper case. *)
Lemma sort_pdfs_options_witness :
  _sort_pdfs ascii_ops ["b.pdf"; "a.pdf"] (Some "NAME") demo_world
  = (Ok ["b.pdf"; "a.pdf"], demo_world).
Proof.
  apply (proj2 (sort_pdfs_options ascii_ops ["b.pdf"; "a.pdf"] "NAME" demo_world)).
  simpl. intuition discriminate.
Defined.

(** X4.  Sorting is idempotent: when [_sort_pdfs] returns a list, sorting
    that list again with the same option, on the same file system, returns
    it unchanged. *)
Theorem sort_pdfs_idempotent (T : StrOps)
    (files sorted : list string) (option : option string) (w w' : World) :
  fst (_sort_pdfs T files option w) = Ok sorted ->
  fs w' = fs w ->
  fst (_sort_pdfs T sorted option w') = Ok sorted.
Proof.
  intros Hs Hfs. destruct option as [option|].
  2: { cbn in *. congruence. }
  rewrite sort_pdfs_unfold in *.
  destruct (key_of (key_name option)) as [k|] eqn:Hk.
  2: { cbn in *. congruence. }
  rewrite echo_then in *.
  set (r := PyStr.startswith option "^") in *.
  destruct k.
  - cbn [sort_by] in *. rewrite list_sort_pure in *. cbn [fst] in *.
    injection Hs as <-. f_equal.
    apply sorted_by_twice;
      [exact string_ltb_irrefl | exact string_ltb_trans | exact string_ltb_connex].
  - rewrite (@sort_by_stat T Mtime st_mtime) in * by auto. cbn [fst fs announce] in *.
    rewrite Hfs.
    destruct (all_ok (stat_field st_mtime (fs w)) files) as [keys|] eqn:E;
      [|discriminate].
    pose proof (all_ok_stat_inv _ _ _ E) as Hp.
    rewrite (all_ok_present st_mtime _ Hp) in E. injection E as <-.
    injection Hs as <-.
    fold (sorted_by Z.ltb (field_at st_mtime (fs w)) r files).
    rewrite all_ok_present.
    + f_equal. apply sorted_by_twice;
        [exact Z.ltb_irrefl | exact z_ltb_trans | exact z_ltb_connex].
    + eapply Permutation_Forall; [|exact Hp].
      apply Permutation_sym, sorted_by_perm.
  - rewrite (@sort_by_stat T Size st_size) in * by auto. cbn [fst fs announce] in *.
    rewrite Hfs.
    destruct (all_ok (stat_field st_size (fs w)) files) as [keys|] eqn:E;
      [|discriminate].
    pose proof (all_ok_stat_inv _ _ _ E) as Hp.
    rewrite (all_ok_present st_size _ Hp) in E. injection E as <-.
    injection Hs as <-.
    fold (sorted_by Z.ltb (field_at st_size (fs w)) r files).
    rewrite all_ok_present.
    + f_equal. apply sorted_by_twice;
        [exact Z.ltb_irrefl | exact z_ltb_trans | exact z_ltb_connex].
    + eapply Permutation_Forall; [|exact Hp].
      apply Permutation_sym, sorted_by_perm.
Qed.

(** X4 on a list sorted by name, largest first. *)
Lemma sort_pdfs_idempotent_witness :
  fst (_sort_pdfs ascii_ops ["b.pdf"; "B.pdf"; "A.pdf"; "a.pdf"] (Some "^name") demo_world)
  = Ok ["b.pdf"; "B.pdf"; "A.pdf"; "a.pdf"].
Proof.
  apply (@sort_pdfs_idempotent ascii_ops ["b.pdf"; "A.pdf"; "a.pdf"; "B.pdf"]
           ["b.pdf"; "B.pdf"; "A.pdf"; "a.pdf"] (Some "^name") demo_world demo_world);
    reflexivity.
Defined.

(* ===================================================================== *)
(** ** More on the validator and the preview *)
(* ===================================================================== *)



(** X6.  [_check_pdfs] returns its input unchanged exactly when every
    path of the input names a regular file and ends with [.pdf]; in every
    case the result is no longer than the input. *)
Theorem check_pdfs_unchanged_iff_all_valid (fs : FS) (pdfs : list string) :
  (_check_pdfs fs pdfs = pdfs <-> Forall (valid_pdf fs) pdfs) /\
  List.length (_check_pdfs fs pdfs) <= List.length pdfs.
Proof.
  split.
  - split.
    + intros H. apply Forall_forall. intros p Hp.
      rewrite <- H in Hp. now apply check_pdfs_in in Hp.
    + induction 1 as [|p pdfs Hp _ IH]; [reflexivity|].
      cbn [_check_pdfs]. apply valid_pdf_spec in Hp. now rewrite Hp, IH.
  - rewrite check_pdfs_filter. apply filter_length_le.
Qed.

(* ===================================================================== *)
(** ** More on the merger *)
(* ===================================================================== *)

Section MoreMergeFacts.

Variable L : PdfLib.

Lemma append_line_failed (files : list string) :
  Forall (fun f => appends L f = false) files ->
  filter (appends L) files = [] /\
  appended_pages L files = [] /\
  Forall (fun l => fg l = Some Red) (map (append_line L) files).
Proof.
  induction 1 as [|f files Hf _ (IH1 & IH2 & IH3)]; [now repeat split|].
  unfold appended_pages in *. cbn [filter flat_map map]. rewrite Hf, IH1, IH2.
  repeat split; [|constructor; [|exact IH3]].
  - unfold pages_of. unfold appends in Hf. now destruct (merger_append L f).
  - unfold append_line. unfold appends in Hf.
    destruct (merger_append L f) as [|e]; [discriminate|now destruct e].
Qed.

(** X7.  When every file of the list appends, the count returned is the
    length of the list, one "Appended" line is printed per file in order,
    and the document holds the pages of the files in order, as many as the
    files have together.  It is written to the output when it has a page
    and the output can be opened and serialised. *)
Theorem merge_pdfs_all_appended (files : list string) (output : string) (w : World) :
  Forall (fun f => appends L f = true) files ->
  let pages := appended_pages L files in
  let printed := map (fun f => style (Appended f) Green) files in
  List.length pages = list_sum (map (fun f => List.length (pages_of L f)) files) /\
  (pages = [] ->
   _merge_pdfs L files output w =
   (Ok (output, List.length files),
    mkWorld (fs w) (console w ++ printed) (answers w))) /\
  (pages <> [] -> writable (fs w) output = true ->
   forall size, serialized_size L pages = Ok size ->
   exists w',
     _merge_pdfs L files output w = (Ok (output, List.length files), w') /\
     console w' = console w ++ printed /\
     written (fs w) (fs w') output pages).
Proof.
  intros Hok pages printed.
  destruct (append_line_ok L Hok) as [Hlines Hfilter].
  assert (appended_count L files = List.length files) as Hcount
      by (unfold appended_count; now rewrite Hfilter).
  split; [|split].
  - unfold pages, appended_pages. clear. induction files as [|f fl IH]; [reflexivity|].
    cbn [flat_map map list_sum]. now rewrite length_app, IH.
  - intros Hnil. rewrite merge_pdfs_run. cbv zeta. fold pages.
    now rewrite Hnil, Hlines, Hcount.
  - intros Hne Hw size Hs. rewrite merge_pdfs_run. cbv zeta. fold pages.
    rewrite Hlines, Hcount, Hw, Hs.
    destruct pages as [|pg rest]; [congruence|]. cbn [nonempty].
    eexists. split; [reflexivity|]. cbn [console fs]. split; [reflexivity|].
    split.
    + exists size, (now (fs w)). cbn. now rewrite String.eqb_refl.
    + intros p Hp. cbn. apply String.eqb_neq in Hp. now rewrite Hp.
Qed.

(** X8.  When no file of the list appends (the empty list included),
    [_merge_pdfs] returns the output name with the count 0, has printed
    one red warning per file, and has not touched the file system. *)
Theorem merge_pdfs_none_appended (files : list string) (output : string) (w : World) :
  Forall (fun f => appends L f = false) files ->
  _merge_pdfs L files output w =
    (Ok (output, 0),
     mkWorld (fs w) (console w ++ map (append_line L) files) (answers w)) /\
  Forall (fun l => fg l = Some Red) (map (append_line L) files).
Proof.
  intros Hno. destruct (append_line_failed Hno) as (Hf & Hp & Hred).
  split; [|exact Hred].
  rewrite merge_pdfs_run. cbv zeta. unfold appended_count.
  now rewrite Hp, Hf.
Qed.

(** X9.  Whatever the library does and however [_merge_pdfs] ends, it
    prints exactly one line per input file, in the order of the list,
    changes no path of the file system other than the output, and reads no
    answer from the user. *)
Theorem merge_pdfs_frame (files : list string) (output : string) (w : World) :
  let w' := snd (_merge_pdfs L files output w) in
  answers w' = answers w /\
  (forall p, p <> output -> lookup (fs w') p = lookup (fs w) p) /\
  exists printed,
    console w' = console w ++ printed /\
    List.length printed = List.length files /\
    attempted printed = files.
Proof.
  rewrite merge_pdfs_run. cbv zeta.
  assert (forall p n, p <> output ->
            lookup (fs_put (fs w) output n) p = lookup (fs w) p) as Hput.
  { intros p n Hp. cbn. apply String.eqb_neq in Hp. now rewrite Hp. }
  destruct (nonempty (appended_pages L files));
    [destruct (writable (fs w) output);
       [destruct (serialized_size L (appended_pages L files))|]|];
    cbn [snd fs console answers]; (split; [reflexivity|]); (split;
      [ intros p Hp; cbn; try (apply String.eqb_neq in Hp; rewrite Hp); reflexivity
      | exists (map (append_line L) files);
        rewrite length_map, attempted_append_lines; auto ]).
Qed.

End MoreMergeFacts.

(** X7 on two documents of one and two pages. *)
Lemma merge_pdfs_all_appended_witness :
  exists w',
    _merge_pdfs demo_lib ["b.pdf"; "a.pdf"] "merged.pdf" demo_world
    = (Ok ("merged.pdf", 2), w') /\
    console w' =
      [style (Appended "b.pdf") Green; style (Appended "a.pdf") Green] /\
    written demo_fs (fs w') "merged.pdf" ["B1"; "B2"; "A1"].
Proof.
  destruct (@merge_pdfs_all_appended demo_lib ["b.pdf"; "a.pdf"] "merged.pdf"
              demo_world ltac:(repeat constructor)) as (_ & _ & H).
  apply (H ltac:(discriminate) eq_refl 364%Z eq_refl).
Defined.

(** X8 on two paths the library cannot find. *)
Lemma merge_pdfs_none_appended_witness :
  _merge_pdfs demo_lib ["x.pdf"; "y.pdf"] "merged.pdf" demo_world =
    (Ok ("merged.pdf", 0),
     mkWorld demo_fs
       [style (NotFoundSkipping "x.pdf") Red; style (NotFoundSkipping "y.pdf") Red]
       [true]) /\
  Forall (fun l => fg l = Some Red)
    [style (NotFoundSkipping "x.pdf") Red; style (NotFoundSkipping "y.pdf") Red].
Proof.
  apply (@merge_pdfs_none_appended demo_lib ["x.pdf"; "y.pdf"] "merged.pdf" demo_world).
  repeat constructor.
Defined.

(* ===================================================================== *)
(** ** More on the compressor *)
(* ===================================================================== *)

Section MoreCompressFacts.

Variable L : PdfLib.

Lemma compress_loop_inv (pages : list (result page)) (writer r : list page)
    (w w1 : World) :
  compress_loop L pages writer w = (Ok r, w1) ->
  exists out, pages_compress L pages out /\ r = writer ++ out /\ w1 = w.
Proof.
  revert writer. induction pages as [|next rest IH]; intros writer; cbn [compress_loop].
  - unfold ret. intros H. injection H as <- <-. exists [].
    split; [constructor|]. now rewrite app_nil_r.
  - unfold bind at 1, lift at 1. destruct next as [p|e]; [|discriminate].
    unfold bind at 1, lift at 1.
    destruct (compress_content_streams L p) as [p'|e] eqn:Hp; [|discriminate].
    intros H. destruct (IH _ H) as (out & Hout & -> & ->).
    exists (p' :: out). split; [now constructor|]. now rewrite <- app_assoc.
Qed.

Lemma pages_compress_length (pages : list (result page)) (out : list page) :
  pages_compress L pages out -> List.length out = List.length pages.
Proof. induction 1; simpl; congruence. Qed.

(** X10.  Whenever [_compress_pdf] returns, every page of the input was
    read and compressed; the output file holds the compressed pages, one
    per page of the input and in the same order; the name returned is the
    output name and the size returned is the size of the file written; no
    other path has changed and nothing was printed. *)
Theorem compress_pdf_returns
    (file output name : string) (size : Z) (w w' : World) :
  _compress_pdf L file output w = (Ok (name, size), w') ->
  exists pages out,
    reader_pages L file = Ok pages /\
    pages_compress L pages out /\
    List.length out = List.length pages /\
    name = output /\
    serialized_size L out = Ok size /\
    written (fs w) (fs w') output out /\
    console w' = console w /\
    answers w' = answers w.
Proof.
  unfold _compress_pdf. unfold bind at 1, lift at 1.
  destruct (reader_pages L file) as [pages|e]; [|discriminate].
  unfold bind at 1.
  destruct (compress_loop L pages [] w) as [[writer|e] w1] eqn:Hloop; [|discriminate].
  destruct (compress_loop_inv _ _ _ Hloop) as (out & Hout & -> & ->).
  cbn [app]. unfold bind at 1, write_document, bind at 1, open_wb.
  destruct (writable (fs w) output); [|discriminate].
  unfold bind at 1, lift.
  destruct (serialized_size L out) as [sz|e] eqn:Hs; [|discriminate].
  unfold store, bind, getsize, ret. cbn [fs lookup fs_put].
  rewrite String.eqb_refl. cbn [st_size].
  intros H. injection H as <- <- <-.
  exists pages, out. repeat split; auto.
  - now apply pages_compress_length.
  - exists sz, (now (fs w)). cbn. now rewrite String.eqb_refl.
  - intros p Hp. cbn. apply String.eqb_neq in Hp. now rewrite Hp.
Qed.

End MoreCompressFacts.

(** X10 on a document of two pages. *)
Lemma compress_pdf_returns_witness :
  exists pages out,
    reader_pages demo_lib "b.pdf" = Ok pages /\
    pages_compress demo_lib pages out /\
    List.length out = List.length pages /\
    "out.pdf" = "out.pdf" /\
    serialized_size demo_lib out = Ok 264%Z /\
    written (fs demo_world)
      (fs (snd (_compress_pdf demo_lib "b.pdf" "out.pdf" demo_world))) "out.pdf" out /\
    console (snd (_compress_pdf demo_lib "b.pdf" "out.pdf" demo_world))
    = console demo_world /\
    answers (snd (_compress_pdf demo_lib "b.pdf" "out.pdf" demo_world))
    = answers demo_world.
Proof.
  apply (@compress_pdf_returns demo_lib "b.pdf" "out.pdf" "out.pdf" 264 demo_world).
  reflexivity.
Defined.

(* ===================================================================== *)
(** ** More on the [merge] command *)
(* ===================================================================== *)

Lemma sort_pdfs_world (T : StrOps) (files : list string) (sort : option string)
    (w : World) :
  snd (_sort_pdfs T files sort w)
  = mkWorld (fs w) (console w ++ sort_lines sort) (answers w).
Proof.
  destruct sort as [option|]; [|cbn; now rewrite announce_nothing].
  rewrite sort_pdfs_unfold. cbn [sort_lines].
  destruct (key_of (key_name option)); [|cbn; now rewrite announce_nothing].
  now rewrite echo_then, sort_by_world.
Qed.

Lemma attempted_sort_lines (sort : option string) : attempted (sort_lines sort) = [].
Proof.
  destruct sort as [option|]; [|reflexivity]. cbn.
  now destruct (key_of (key_name option)).
Qed.

Lemma appended_count_perm (L : PdfLib) (l l' : list string) :
  Permutation l l' -> appended_count L l = appended_count L l'.
Proof.
  unfold appended_count.
  induction 1 as [|x l l' _ IH|x y l|l l' l'' _ IH1 _ IH2]; cbn [filter];
    [reflexivity| |
     |congruence].
  - destruct (appends L x); simpl; congruence.
  - destruct (appends L x), (appends L y); reflexivity.
Qed.

Section MoreMergeCommand.

Variable T : StrOps.
Variable L : PdfLib.

Lemma merge_report_run (pdfs : list string) (output : string) (w : World) :
  let pages := appended_pages L pdfs in
  let w1 := mkWorld (fs w) (console w ++ map (append_line L) pdfs) (answers w) in
  let last := summary_line output (appended_count L pdfs) in
  merge_report L pdfs output w =
  if nonempty pages then
    if writable (fs w) output then
      let emptied := fs_put (fs w) output (mkNode RegularFile 0 (now (fs w)) Bytes) in
      match serialized_size L pages with
      | Ok size =>
          (Ok tt,
           mkWorld (fs_put emptied output
                      (mkNode RegularFile size (now (fs w)) (Document pages)))
                   (console w1 ++ [last]) (answers w))
      | Raise e => (Raise e, mkWorld emptied (console w1) (answers w))
      end
    else (Raise (OSError output), w1)
  else (Ok tt, mkWorld (fs w) (console w1 ++ [last]) (answers w)).
Proof.
  intros pages w1 last. unfold merge_report, bind. rewrite merge_pdfs_run. cbv zeta.
  fold pages. unfold last, summary_line.
  destruct (nonempty pages);
    [destruct (writable (fs w) output);
       [destruct (serialized_size L pages)|]|];
    try reflexivity;
    destruct (0 <? appended_count L pdfs)%nat; reflexivity.
Qed.

(** How [merge] runs once the candidates are known. *)
Lemma merge_cases
    (yes : bool) (files : list string) (dir pattern : string)
    (from_list sort : option string) (output : string) (w : World)
    (cands : list string) :
  merge_candidates T files dir pattern from_list w = (Ok cands, w) ->
  let found := _check_pdfs (fs w) cands in
  let shown := console w ++ preview found ++ sort_lines sort in
  let prompt := style ConfirmMerge Yellow in
  exists order,
    Permutation order found /\
    fst (_sort_pdfs T found sort w) = Ok order /\
    merge T L yes files dir pattern from_list sort output w =
    match order with
    | [] => (Ok tt, mkWorld (fs w) (shown ++ [style NoPdfsFound Red]) (answers w))
    | _ :: _ =>
        if yes then merge_report L order output (mkWorld (fs w) shown (answers w))
        else match answers w with
             | true :: more =>
                 merge_report L order output (mkWorld (fs w) (shown ++ [prompt]) more)
             | false :: more => (Raise Abort, mkWorld (fs w) (shown ++ [prompt]) more)
             | [] => (Raise Abort, mkWorld (fs w) (shown ++ [prompt]) [])
             end
    end.
Proof.
  intros Hc found shown prompt.
  destruct (sort_pdfs_run T found sort w) as (r & printed & Hrun & _ & Hfound).
  destruct (Hfound (check_pdfs_found _ _)) as (order & -> & Hperm).
  assert (printed = sort_lines sort) as ->.
  { pose proof (sort_pdfs_world T found sort w) as Hw.
    rewrite (Hrun w eq_refl) in Hw. cbn [snd] in Hw. injection Hw as Hw.
    now apply app_inv_head in Hw. }
  exists order. split; [exact Hperm|]. split; [now rewrite (Hrun w eq_refl)|].
  unfold merge. unfold bind at 1. rewrite Hc.
  unfold bind at 1, with_fs. fold found.
  unfold bind at 1. rewrite display_pdfs_run, sort_guard.
  unfold bind at 1.
  rewrite (Hrun (mkWorld (fs w) (console w ++ preview found) (answers w)) eq_refl).
  cbn [fs console answers]. rewrite <- app_assoc. fold shown.
  destruct order as [|p order]; cbn [nonempty negb].
  - reflexivity.
  - destruct yes; cbn [negb].
    + reflexivity.
    + unfold bind at 1, confirm_or_abort. cbn [answers fs console].
      destruct (answers w) as [|[|] more]; reflexivity.
Qed.

End MoreMergeCommand.

Section MergeCommandEffects.

Variable T : StrOps.
Variable L : PdfLib.

Lemma attempted_summary_line (output : string) (n : nat) :
  attempted [summary_line output n] = [].
Proof. unfold summary_line. now destruct (0 <? n)%nat. Qed.

(** What the merge and its summary leave behind. *)
Lemma merge_report_effect (pdfs : list string) (output : string) (w : World) :
  let run := merge_report L pdfs output w in
  answers (snd run) = answers w /\
  (forall p, p <> output -> lookup (fs (snd run)) p = lookup (fs w) p) /\
  exists tail,
    console (snd run) = console w ++ map (append_line L) pdfs ++ tail /\
    attempted tail = [] /\
    (fst run = Ok tt -> tail = [summary_line output (appended_count L pdfs)]).
Proof.
  rewrite merge_report_run. cbv zeta.
  destruct (nonempty (appended_pages L pdfs));
    [destruct (writable (fs w) output);
       [destruct (serialized_size L (appended_pages L pdfs))|]|];
    cbn [fst snd fs console answers]; (split; [reflexivity|]); (split;
      [ intros p Hp; cbn; try (apply String.eqb_neq in Hp; rewrite Hp); reflexivity |]).
  - eexists. split; [now rewrite <- app_assoc|].
    split; [apply attempted_summary_line|reflexivity].
  - exists []. rewrite app_nil_r. repeat split. discriminate.
  - exists []. rewrite app_nil_r. repeat split. discriminate.
  - eexists. split; [now rewrite <- app_assoc|].
    split; [apply attempted_summary_line|reflexivity].
Qed.

(** X11.  Without [--yes], when there is a PDF to merge and the user does
    not agree (the answer is no, or the input has ended), [merge] raises
    [Abort] right after the prompt: the exit status is 1, no file was
    appended and the file system is as it was. *)
Theorem merge_declined
    (files : list string) (dir pattern : string) (from_list sort : option string)
    (output : string) (w : World) (cands : list string) :
  merge_candidates T files dir pattern from_list w = (Ok cands, w) ->
  _check_pdfs (fs w) cands <> [] ->
  (answers w = [] \/ exists more, answers w = false :: more) ->
  let run := merge T L false files dir pattern from_list sort output w in
  fst run = Raise Abort /\
  exit_status (fst run) = 1%Z /\
  fs (snd run) = fs w /\
  console (snd run) =
    console w ++ preview (_check_pdfs (fs w) cands) ++ sort_lines sort ++
    [style ConfirmMerge Yellow].
Proof.
  intros Hc Hne Hans run. unfold run.
  destruct (@merge_cases T L false files dir pattern from_list sort output w cands Hc)
    as (order & Hperm & _ & ->).
  destruct order as [|p order].
  { apply Permutation_nil in Hperm. congruence. }
  destruct Hans as [->|[more ->]]; cbn [fst snd fs console exit_status];
    rewrite <- !app_assoc; auto.
Qed.

(** X12.  When no candidate is a valid PDF, [merge] prints the preview
    header with the count 0, then the line of the sort if a sort was
    asked for, then "No PDFs found", and returns: it does not prompt, even
    without [--yes], and does not touch the file system. *)
Theorem merge_without_pdfs
    (yes : bool) (files : list string) (dir pattern : string)
    (from_list sort : option string) (output : string) (w : World)
    (cands : list string) :
  merge_candidates T files dir pattern from_list w = (Ok cands, w) ->
  _check_pdfs (fs w) cands = [] ->
  merge T L yes files dir pattern from_list sort output w =
  (Ok tt,
   mkWorld (fs w)
     (console w ++ style (FoundPdfs 0) Blue :: sort_lines sort ++
      [style NoPdfsFound Red])
     (answers w)).
Proof.
  intros Hc Hnil.
  destruct (@merge_cases T L yes files dir pattern from_list sort output w cands Hc)
    as (order & Hperm & _ & ->).
  rewrite Hnil in *. apply Permutation_sym, Permutation_nil in Hperm. subst order.
  cbn [preview enumerate List.length seq combine map]. now rewrite <- !app_assoc.
Qed.

(** X13.  However [merge] ends, the only path of the file system it can
    have changed is the output; the only files it tried to append are
    candidates that passed the validation; and with [--yes] it read no
    answer. *)
Theorem merge_touches_only_output
    (yes : bool) (files : list string) (dir pattern : string)
    (from_list sort : option string) (output : string) (w : World)
    (cands : list string) :
  merge_candidates T files dir pattern from_list w = (Ok cands, w) ->
  let w' := snd (merge T L yes files dir pattern from_list sort output w) in
  (forall p, p <> output -> lookup (fs w') p = lookup (fs w) p) /\
  (yes = true -> answers w' = answers w) /\
  exists rest,
    console w' = console w ++ preview (_check_pdfs (fs w) cands) ++ rest /\
    Forall (fun f => In f cands /\ valid_pdf (fs w) f) (attempted rest).
Proof.
  intros Hc w'. unfold w'.
  destruct (@merge_cases T L yes files dir pattern from_list sort output w cands Hc)
    as (order & Hperm & _ & ->).
  set (found := _check_pdfs (fs w) cands) in *.
  assert (Forall (fun f => In f cands /\ valid_pdf (fs w) f) order) as Hvalid.
  { apply Forall_forall. intros f Hf. apply check_pdfs_in.
    eapply Permutation_in; [exact Hperm|exact Hf]. }
  pose proof (attempted_sort_lines sort) as Hsort.
  assert (forall shown more extra,
    attempted extra = [] ->
    shown = console w ++ preview found ++ sort_lines sort ++ extra ->
    let run := merge_report L order output (mkWorld (fs w) shown more) in
    (forall p, p <> output -> lookup (fs (snd run)) p = lookup (fs w) p) /\
    answers (snd run) = more /\
    exists rest,
      console (snd run) = console w ++ preview found ++ rest /\
      Forall (fun f => In f cands /\ valid_pdf (fs w) f) (attempted rest)) as Hrep.
  { intros shown more extra Hextra -> run.
    destruct (merge_report_effect order output
                (mkWorld (fs w) (console w ++ preview found ++ sort_lines sort ++ extra) more))
      as (Ha & Hf & tail & Hcon & Htail & _).
    fold run in Ha, Hf, Hcon. cbn [fs console answers] in *.
    split; [exact Hf|]. split; [exact Ha|].
    exists (sort_lines sort ++ extra ++ map (append_line L) order ++ tail).
    split; [rewrite Hcon; now rewrite <- !app_assoc|].
    now rewrite !attempted_app, Hsort, Hextra, Htail, attempted_append_lines, app_nil_r. }
  destruct order as [|p order].
  - cbn [snd fs console answers]. repeat split; auto.
    exists (sort_lines sort ++ [style NoPdfsFound Red]).
    split; [now rewrite <- !app_assoc|].
    rewrite attempted_app, Hsort. constructor.
  - destruct yes.
    + destruct (Hrep (console w ++ preview found ++ sort_lines sort) (answers w) [])
        as (H1 & H2 & H3); [reflexivity|now rewrite app_nil_r|].
      repeat split; auto.
    + destruct (answers w) as [|[|] more].
      * cbn [snd fs console answers]. repeat split; auto; try discriminate.
        exists (sort_lines sort ++ [style ConfirmMerge Yellow]).
        split; [now rewrite <- !app_assoc|].
        rewrite attempted_app, Hsort. constructor.
      * destruct (Hrep ((console w ++ preview found ++ sort_lines sort)
                          ++ [style ConfirmMerge Yellow]) more
                       [style ConfirmMerge Yellow])
          as (H1 & H2 & H3); [reflexivity|now rewrite <- !app_assoc|].
        repeat split; auto. discriminate.
      * cbn [snd fs console answers]. repeat split; auto; try discriminate.
        exists (sort_lines sort ++ [style ConfirmMerge Yellow]).
        split; [now rewrite <- !app_assoc|].
        rewrite attempted_app, Hsort. constructor.
Qed.

(** X14.  When [merge] had a PDF to merge and returns normally, the last
    line it printed is the summary: "Merged n PDFs" with the output name
    when n, the number of validated candidates that appended, is not 0,
    and "No valid PDFs found to merge" when it is 0.  The sort option does
    not change n. *)
Theorem merge_summary
    (yes : bool) (files : list string) (dir pattern : string)
    (from_list sort : option string) (output : string) (w : World)
    (cands : list string) :
  merge_candidates T files dir pattern from_list w = (Ok cands, w) ->
  _check_pdfs (fs w) cands <> [] ->
  fst (merge T L yes files dir pattern from_list sort output w) = Ok tt ->
  let n := appended_count L (_check_pdfs (fs w) cands) in
  exists before,
    console (snd (merge T L yes files dir pattern from_list sort output w)) =
    console w ++ before ++
    [if (0 <? n)%nat then style (MergedTo n output) Blue else style NoValidPdfs Red].
Proof.
  intros Hc Hne.
  destruct (@merge_cases T L yes files dir pattern from_list sort output w cands Hc)
    as (order & Hperm & _ & ->).
  set (found := _check_pdfs (fs w) cands) in *.
  rewrite <- (appended_count_perm L Hperm).
  destruct order as [|p order].
  { apply Permutation_nil in Hperm. congruence. }
  assert (forall shown more,
    fst (merge_report L (p :: order) output (mkWorld (fs w) (console w ++ shown) more))
    = Ok tt ->
    exists before,
      console (snd (merge_report L (p :: order) output
                      (mkWorld (fs w) (console w ++ shown) more))) =
      console w ++ before ++
      [summary_line output (appended_count L (p :: order))]) as Hrep.
  { intros shown more Hok.
    destruct (merge_report_effect (p :: order) output
                (mkWorld (fs w) (console w ++ shown) more))
      as (_ & _ & tail & Hcon & _ & Htail).
    cbv zeta in Htail. rewrite (Htail Hok) in Hcon. cbn [console] in Hcon.
    exists (shown ++ map (append_line L) (p :: order)).
    rewrite Hcon. now rewrite <- !app_assoc. }
  fold (summary_line output (appended_count L (p :: order))).
  destruct yes.
  - intros Hok. now apply Hrep.
  - destruct (answers w) as [|[|] more]; try discriminate.
    intros Hok. rewrite <- app_assoc in *. now apply Hrep.
Qed.

End MergeCommandEffects.

(** X11 on the two documents of the directory and a user who says no. *)
Lemma merge_declined_witness :
  let w := sample_world demo_fs [false] in
  let run := merge ascii_ops demo_lib false [] "." "*.pdf" None (Some "name") "merged.pdf" w in
  fst run = Raise Abort /\
  exit_status (fst run) = 1%Z /\
  fs (snd run) = fs w /\
  console (snd run) =
    [style (FoundPdfs 2) Blue;
     plain (Item 1 "./a.pdf");
     plain (Item 2 "./b.pdf");
     style (SortingBy "name" false) Yellow;
     style ConfirmMerge Yellow].
Proof.
  apply (@merge_declined ascii_ops demo_lib [] "." "*.pdf" None (Some "name") "merged.pdf"
           (sample_world demo_fs [false]) ["./a.pdf"; "./b.pdf"]).
  - reflexivity.
  - discriminate.
  - right. now exists [].
Defined.

(** X12 on a list file that names no PDF, with a sort option. *)
Lemma merge_without_pdfs_witness :
  merge ascii_ops demo_lib false [] "." "*.pdf" (Some "list.txt") (Some "^size") "merged.pdf"
    demo_world =
  (Ok tt,
   mkWorld demo_fs
     [style (FoundPdfs 0) Blue;
      style (SortingBy "size" true) Yellow;
      style NoPdfsFound Red]
     [true]).
Proof.
  apply (@merge_without_pdfs ascii_ops demo_lib false [] "." "*.pdf" (Some "list.txt")
           (Some "^size") "merged.pdf" demo_world []); reflexivity.
Defined.

(** X13 on two explicit files, one of them missing under the directory. *)
Lemma merge_touches_only_output_witness :
  let w' := snd (merge ascii_ops demo_lib true ["b.pdf"; "c.pdf"] "." "*.pdf" None None
                   "merged.pdf" demo_world) in
  (forall p, p <> "merged.pdf" -> lookup (fs w') p = lookup (fs demo_world) p) /\
  (true = true -> answers w' = answers demo_world) /\
  exists rest,
    console w' =
      console demo_world ++
      preview (_check_pdfs (fs demo_world) ["./b.pdf"; "./c.pdf"]) ++ rest /\
    Forall (fun f => In f ["./b.pdf"; "./c.pdf"] /\ valid_pdf (fs demo_world) f)
      (attempted rest).
Proof.
  apply (@merge_touches_only_output ascii_ops demo_lib true ["b.pdf"; "c.pdf"] "." "*.pdf"
           None None "merged.pdf" demo_world ["./b.pdf"; "./c.pdf"]).
  reflexivity.
Defined.

(** X14 on the two documents of the directory. *)
Lemma merge_summary_witness :
  exists before,
    console (snd (merge ascii_ops demo_lib true [] "." "*.pdf" None (Some "^name")
                    "merged.pdf" demo_world)) =
    console demo_world ++ before ++ [style (MergedTo 2 "merged.pdf") Blue].
Proof.
  apply (@merge_summary ascii_ops demo_lib true [] "." "*.pdf" None (Some "^name")
           "merged.pdf" demo_world ["./a.pdf"; "./b.pdf"]).
  - reflexivity.
  - discriminate.
  - reflexivity.
Defined.

(* ===================================================================== *)
(** ** The command line *)
(* ===================================================================== *)

Lemma for_each_click_path (param : string) (files : list string) (w : World) :
  for_each files (click_path param false) w =
  if forallb (accepted (fs w)) files then (Ok tt, w)
  else (Raise (UsageError param), w).
Proof.
  induction files as [|f files IH]; [reflexivity|].
  cbn [for_each forallb]. unfold bind. unfold click_path at 1, accepted at 1.
  destruct (lookup (fs w) f) as [n|]; [|reflexivity].
  rewrite andb_true_r. destruct (is_dir n); [reflexivity|]. exact IH.
Qed.

(** X15.  The path arguments are checked before the body of a command
    runs.  [compress] with a file that does not exist or is a directory,
    and [merge] with such a file argument, with a [--dir] that does not
    exist, or with a [--from-list] that does not exist or is a directory,
    end with exit status 2; nothing is printed and nothing is written. *)
Theorem cli_rejects_bad_paths (T : StrOps) (L : PdfLib) (w : World) :
  (forall file output,
     accepted (fs w) file = false ->
     cli T L (Compress file output) w = (2%Z, w)) /\
  (forall yes files dir pattern from_list sort output,
     Exists (fun f => accepted (fs w) f = false) files \/
     present (fs w) dir = false \/
     (exists list_file, from_list = Some list_file /\
                        accepted (fs w) list_file = false) ->
     cli T L (Merge yes files dir pattern from_list sort output) w = (2%Z, w)).
Proof.
  split.
  - intros file output H. unfold cli, invoke, bind, click_path.
    unfold accepted in H. destruct (lookup (fs w) file) as [n|]; [|reflexivity].
    rewrite andb_true_r. now destruct (is_dir n).
  - intros yes files dir pattern from_list sort output H.
    unfold cli, invoke. unfold bind at 1. rewrite for_each_click_path.
    destruct (forallb (accepted (fs w)) files) eqn:Hfiles; [|reflexivity].
    unfold bind at 1. unfold click_path at 1.
    destruct (lookup (fs w) dir) as [d|] eqn:Hdir; [|reflexivity].
    cbn [negb]. rewrite andb_false_r.
    destruct H as [H|[H|(list_file & -> & H)]].
    + exfalso. apply Exists_exists in H. destruct H as (f & Hf & Hbad).
      rewrite forallb_forall in Hfiles. rewrite (Hfiles f Hf) in Hbad. discriminate.
    + unfold present in H. rewrite Hdir in H. discriminate.
    + unfold bind at 1, click_path. unfold accepted in H.
      destruct (lookup (fs w) list_file) as [n|]; [|reflexivity].
      rewrite andb_true_r. now destruct (is_dir n).
Qed.

(** X15 on a file argument that is a directory. *)
Lemma cli_rejects_bad_paths_witness :
  cli ascii_ops demo_lib (Merge true ["a.pdf"; "outdir"] "." "*.pdf" None None "merged.pdf")
    demo_world = (2%Z, demo_world).
Proof.
  apply (proj2 (cli_rejects_bad_paths ascii_ops demo_lib demo_world)).
  left. apply Exists_cons_tl, Exists_cons_hd. reflexivity.
Defined.
